(** * DeclaraCAD: the OpenCascade operation proxies ([occ/impl/occ_algo.py])

    A shallow embedding of the operation proxies of DeclaraCAD and the
    properties of its recompute engine: the debounced update queue of
    [OccOperation], the boolean reduction, the fillet, chamfer and
    thick-solid builders, the observer rebinding of [OccPipe] and
    [OccTransform], and the composition of [gp_Trsf] transforms. *)

From Stdlib Require Import Floats.
From Stdlib Require Import ZArith List String Bool Lia Reals Lra.
From stdpp Require Import base option list gmap strings.
Import ListNotations.
Local Open Scope string_scope.
Local Open Scope list_scope.
Local Open Scope Z_scope.

Set Warnings "-register-all".

(** ** Python values that cross the kernel boundary *)

(** The OCCT classes instantiated by this module. *)
Inductive kclass : Type :=
| BRepAlgoAPI_Common
| BRepAlgoAPI_Cut
| BRepAlgoAPI_Fuse
| BRepFilletAPI_MakeFillet
| BRepFilletAPI_MakeChamfer
| TopTools_ListOfShape
| BRepOffsetAPI_MakeThickSolid.

(** A Python object as the proxies see it.  Kernel objects are opaque: a
    builder is recorded as the class, the constructor arguments and the
    arguments of the [Add]/[Append] calls made on it so far. *)
Inductive obj : Type :=
| PyNone
| PyBool (b : bool)
| PyFloat (f : float)
| Const (name : string)          (* a kernel enumeration constant *)
| Topo (n : N)                   (* a TopoDS shape, edge or face: no [Shape] attribute *)
| Maker (n : N)                  (* a builder made elsewhere (a primitive, a wire): has [Shape()] *)
| ShapeOf (b : obj)              (* the TopoDS_Shape returned by [b.Shape()] *)
| New (cls : kclass) (args : list obj) (added : list (list obj)).

(** [bool(o)]: None, False and 0.0 are falsy, any other object is truthy. *)
Definition truthy (o : obj) : bool :=
  match o with
  | PyNone => false
  | PyBool b => b
  | PyFloat f => negb (PrimFloat.eqb f 0%float)
  | _ => true
  end.

(** [hasattr(o, 'Shape')]: only the builders have the method. *)
Definition has_Shape (o : obj) : bool :=
  match o with
  | Maker _ => true
  | New TopTools_ListOfShape _ _ => false
  | New _ _ _ => true
  | _ => false
  end.

Fixpoint size (o : obj) : nat :=
  match o with
  | ShapeOf b => S (size b)
  | New _ args added =>
      S (list_sum (map size args) + list_sum (map (fun l => list_sum (map size l)) added))
  | _ => 1%nat
  end.

(** ** Exceptions, the kernel log and the rebuild monad *)

Inductive exn : Type :=
| ValueError (msg : string)
| AttributeError (msg : string)
| TypeError (msg : string).

Inductive outcome (A : Type) : Type :=
| Return (a : A)
| Raise (e : exn).
Arguments Return {A} a.
Arguments Raise {A} e.

(** One entry of the log of calls into the geometry kernel. *)
Inductive kcall : Type :=
| KNew (cls : kclass) (args : list obj)
| KMethod (receiver : obj) (meth : string) (args : list obj).

(** What a rebuild reads and writes on the proxy: [self.shape], and the
    calls it has made into the kernel. *)
Record rebuild_state : Type := mkState {
  self_shape : obj;
  kernel : list kcall
}.

Definition M (A : Type) : Type := rebuild_state -> outcome A * rebuild_state.

Definition ret {A} (a : A) : M A := fun s => (Return a, s).
Definition raise {A} (e : exn) : M A := fun s => (Raise e, s).
Definition bind {A B} (m : M A) (f : A -> M B) : M B :=
  fun s => match m s with
           | (Return a, s') => f a s'
           | (Raise e, s') => (Raise e, s')
           end.

Notation "x <- m ;; f" := (bind m (fun x => f))
  (at level 100, m at next level, right associativity).
Notation "m ;;; f" := (bind m (fun _ => f))
  (at level 100, right associativity).

Definition get_self_shape : M obj := fun s => (Return (self_shape s), s).
Definition set_self_shape (v : obj) : M unit :=
  fun s => (Return tt, mkState v (kernel s)).
Definition log (c : kcall) : M unit :=
  fun s => (Return tt, mkState (self_shape s) (kernel s ++ [c])).

(** Instantiating a kernel class with an argument list. *)
Definition kernel_new (cls : kclass) (args : list obj) : M obj :=
  log (KNew cls args) ;;; ret (New cls args []).

(** [o.Shape()] *)
Definition call_Shape (o : obj) : M obj :=
  if has_Shape o then log (KMethod o "Shape" []) ;;; ret (ShapeOf o)
  else raise (AttributeError "Shape").

(** [o.Shape() if hasattr(o, 'Shape') else o] *)
Definition Shape_if_builder (o : obj) : M obj :=
  if has_Shape o then call_Shape o else ret o.

(** The shape a builder or a finished shape stands for. *)
Definition as_shape (o : obj) : obj := if has_Shape o then ShapeOf o else o.

(** [b.Add] or [b.Append] with an argument list, on a builder held in a local. *)
Definition call_add (meth : string) (b : obj) (args : list obj) : M obj :=
  match b with
  | New cls cargs added =>
      log (KMethod b meth args) ;;; ret (New cls cargs (added ++ [args]))
  | _ => raise (AttributeError meth)
  end.

(** The log entries of calling [meth] on a builder once per argument
    list, the builder growing with each call. *)
Fixpoint add_calls (meth : string) (cls : kclass) (cargs : list obj)
         (added : list (list obj)) (argss : list (list obj)) : list kcall :=
  match argss with
  | [] => []
  | args :: rest =>
      KMethod (New cls cargs added) meth args
        :: add_calls meth cls cargs (added ++ [args]) rest
  end.

(** The argument lists of the calls of [meth] in a log, oldest first. *)
Definition submitted (meth : string) (calls : list kcall) : list (list obj) :=
  flat_map (fun c => match c with
                     | KMethod _ m args => if String.eqb m meth then [args] else []
                     | KNew _ _ => []
                     end) calls.

(** [for x in xs: body(x)] *)
Fixpoint for_each {A} (xs : list A) (body : A -> M unit) : M unit :=
  match xs with
  | [] => ret tt
  | x :: rest => body x ;;; for_each rest body
  end.

(** [for x in xs: acc = body(acc, x)] with a local rebound in the loop. *)
Fixpoint for_fold {A B} (xs : list A) (acc : B) (body : B -> A -> M B) : M B :=
  match xs with
  | [] => ret acc
  | x :: rest => acc' <- body acc x ;; for_fold rest acc' body
  end.

(** A child proxy: its [shape] and what its [topology] enumerates. *)
Module Topology.
Record t : Type := { edges : list obj; faces : list obj }.
End Topology.

Record OccShape : Type := { shape : obj; topology : Topology.t }.

(** A local that holds a child proxy or [None]; reading an attribute of
    [None] raises. *)
Definition getattr_shape (s : option OccShape) : M obj :=
  match s with
  | Some c => ret (shape c)
  | None => raise (AttributeError "'NoneType' object has no attribute 'shape'")
  end.

Definition getattr_topology (s : option OccShape) : M Topology.t :=
  match s with
  | Some c => ret (topology c)
  | None => raise (AttributeError "'NoneType' object has no attribute 'topology'")
  end.

(** [bool(l)] of a list. *)
Definition nonempty {A} (l : list A) : bool :=
  match l with [] => false | _ :: _ => true end.

(** [zip(xs, ys)]: stops as soon as either side is exhausted. *)
Fixpoint zip {A B} (xs : list A) (ys : list B) : list (A * B) :=
  match xs with
  | [] => []
  | x :: xs' =>
      match ys with
      | [] => []
      | y :: ys' => (x, y) :: zip xs' ys'
      end
  end.

(** ** OccOperation: the queued update

    Proxies are objects on a heap, named by an identity.  The record holds
    the attributes this module reads and writes: the declaration (gone
    once the proxy is destroyed), the pending counter, the references kept
    by [OccPipe] and [OccTransform], and the observer pool of the member
    [shape].  All the callbacks bound on [shape] in this module are the
    bound method [p._queue_update] of some proxy [p], so a callback is
    recorded as the identity of [p]. *)

Definition oid : Type := positive.

(** The argument of [_queue_update]: the empty dict of the [set_*]
    handlers, or the change dict of a member notification. *)
Inductive change : Type :=
| EmptyChange
| MemberChange (object : oid) (name : string).

(** A declaration: its members by name. *)
Abbreviation members := (gmap string obj).

Record proxy : Type := mkProxy {
  declaration : option members;
  _update_count : Z;
  _old_spline : option oid;
  _old_profile : option oid;
  _old_shape : option oid;
  shape_observers : list oid
}.

(** The heap, the calls queued on the event loop by [timed_call(0, ...)]
    (each is [target._dequeue_update(change)], fired in queue order), and
    the record of the [update_shape] invocations made so far, each with
    the change it was given and the declaration it reads. *)
Record world : Type := mkWorld {
  heap : gmap oid proxy;
  event_loop : list (oid * change);
  rebuilds : list (oid * change * members)
}.

Definition with_heap (f : gmap oid proxy -> gmap oid proxy) (w : world) : world :=
  mkWorld (f (heap w)) (event_loop w) (rebuilds w).

Definition set_update_count (n : Z) (p : proxy) : proxy :=
  mkProxy (declaration p) n (_old_spline p) (_old_profile p) (_old_shape p)
          (shape_observers p).

Definition set_declaration (d : option members) (p : proxy) : proxy :=
  mkProxy d (_update_count p) (_old_spline p) (_old_profile p) (_old_shape p)
          (shape_observers p).

Definition set_old_spline (r : option oid) (p : proxy) : proxy :=
  mkProxy (declaration p) (_update_count p) r (_old_profile p) (_old_shape p)
          (shape_observers p).

Definition set_old_profile (r : option oid) (p : proxy) : proxy :=
  mkProxy (declaration p) (_update_count p) (_old_spline p) r (_old_shape p)
          (shape_observers p).

Definition set_old_shape (r : option oid) (p : proxy) : proxy :=
  mkProxy (declaration p) (_update_count p) (_old_spline p) (_old_profile p) r
          (shape_observers p).

Definition set_shape_observers (l : list oid) (p : proxy) : proxy :=
  mkProxy (declaration p) (_update_count p) (_old_spline p) (_old_profile p)
          (_old_shape p) l.

(** The pending counter of a proxy, 0 for an identity not on the heap. *)
Definition pending (w : world) (o : oid) : Z :=
  match heap w !! o with
  | Some p => _update_count p
  | None => 0
  end.

(** The queued calls that target a proxy. *)
Definition queued (w : world) (o : oid) : list (oid * change) :=
  filter (fun e => fst e = o) (event_loop w).

Module OccOperation.

(** [timed_call(0, self._dequeue_update, change)] *)
Definition timed_call (self : oid) (c : change) (w : world) : world :=
  mkWorld (heap w) (event_loop w ++ [(self, c)]) (rebuilds w).

Definition _queue_update (self : oid) (c : change) (w : world) : world :=
  let w := with_heap (alter (fun p => set_update_count (_update_count p + 1) p) self) w in
  timed_call self c w.

(** [OccOperation] leaves [update_shape] to its subclasses; what each
    computes is in the modules below.  Here an invocation is recorded in
    [rebuilds], with the change it is given and the declaration it reads
    at that time.  The assignment to [self.shape] that ends a rebuild
    notifies the observers of the shape: that notification is not part
    of this step, it is the step [shape_changed] below. *)
Definition update_shape (self : oid) (c : change) (d : members) (w : world)
  : world :=
  mkWorld (heap w) (event_loop w) (rebuilds w ++ [(self, c, d)]).

Definition _dequeue_update (self : oid) (c : change) (w : world) : world :=
  let w := with_heap (alter (fun p => set_update_count (_update_count p - 1) p) self) w in
  match heap w !! self with
  | None => w
  | Some p =>
      if negb (_update_count p =? 0) then w
      else match declaration p with
           | None => w
           | Some d => update_shape self c d w
           end
  end.

Definition set_direction (self : oid) (w : world) : world :=
  _queue_update self EmptyChange w.

Definition set_axis (self : oid) (w : world) : world :=
  _queue_update self EmptyChange w.

(** One turn of the event loop: the oldest queued call is taken off the
    queue and run. *)
Definition fire (w : world) : world :=
  match event_loop w with
  | [] => w
  | (target, c) :: rest =>
      _dequeue_update target c (mkWorld (heap w) rest (rebuilds w))
  end.

Fixpoint fire_n (n : nat) (w : world) : world :=
  match n with
  | O => w
  | S n' => fire_n n' (fire w)
  end.

(** A write to a member of the declaration: the member is stored, then
    the declaration hands the new value to the [set_<member>] handler of
    the proxy, which for the parameters of an operation is
    [_queue_update({})].  This is the write of a member that has such a
    handler; a member without one on the proxy reaches no
    [_queue_update], and its write is not an instance of this step. *)
Definition set_parameter (self : oid) (field : string) (value : obj) (w : world)
  : world :=
  let w := with_heap
             (alter (fun p => set_declaration
                                (option_map (insert field value) (declaration p)) p)
                    self) w in
  _queue_update self EmptyChange w.

(** The notifications a node receives: a parameter write, or the change
    of a member it observes. *)
Inductive notification : Type :=
| Write (field : string) (value : obj)
| Observed (c : change).

Definition deliver (self : oid) (n : notification) (w : world) : world :=
  match n with
  | Write field value => set_parameter self field value w
  | Observed c => _queue_update self c w
  end.

Definition deliver_all (self : oid) (ns : list notification) (w : world) : world :=
  fold_left (fun w n => deliver self n w) ns w.

(** The change dict the callback queued by a notification carries. *)
Definition change_of (n : notification) : change :=
  match n with
  | Write _ _ => EmptyChange
  | Observed c => c
  end.

(** The declaration after a sequence of parameter writes. *)
Definition written (ns : list notification) (d : members) : members :=
  fold_left (fun d n => match n with
                        | Write field value => <[field := value]> d
                        | Observed _ => d
                        end) ns d.

(** *** Observers of the member [shape] *)

(** [target.observe('shape', self._queue_update)]: a pool holds a
    callback once. *)
Definition observe (target self : oid) (w : world) : world :=
  with_heap (alter (fun p =>
    set_shape_observers
      (if bool_decide (self ∈ shape_observers p) then shape_observers p
       else shape_observers p ++ [self]) p) target) w.

(** [target.unobserve('shape', self._queue_update)] *)
Definition unobserve (target self : oid) (w : world) : world :=
  with_heap (alter (fun p =>
    set_shape_observers (filter (fun o => o ≠ self) (shape_observers p)) p) target) w.

(** The member [shape] of [target] changed: every callback in its pool
    is called with the change dict. *)
Definition shape_changed (target : oid) (w : world) : world :=
  match heap w !! target with
  | None => w
  | Some p =>
      fold_left (fun w o => _queue_update o (MemberChange target "shape") w)
                (shape_observers p) w
  end.

(** The observer pool of the member [shape] of [target]. *)
Definition pool (w : world) (target : oid) : list oid :=
  match heap w !! target with
  | Some p => shape_observers p
  | None => []
  end.

(** Whether a shape change of [target] calls [self._queue_update]. *)
Definition observes (w : world) (self target : oid) : Prop :=
  self ∈ pool w target.

(** What rebinding a reference of [self] from [X] to [Y] through the
    handler [rebind] amounts to; [field] reads the reference kept on
    the proxy and [set_field] stores it. *)
Definition rebinds (rebind : oid -> oid -> world -> world)
           (field : world -> oid -> option oid)
           (set_field : option oid -> proxy -> proxy)
           (w : world) (self X Y : oid) : Prop :=
  let w' := rebind self Y w in
  (* the old node is unobserved first, the new one observed next *)
  w' = _queue_update self EmptyChange
         (with_heap (alter (set_field (Some Y)) self)
            (observe Y self (unobserve X self w))) /\
  field w' self = Some Y /\
  observes w' self Y /\
  (X <> Y -> ~ observes w' self X) /\
  (forall Z : oid, observes w' self Z <-> Z = Y \/ (Z <> X /\ observes w self Z)) /\
  (* a node that observed [X] and nothing else observes [Y] and nothing else *)
  ((forall Z : oid, observes w self Z <-> Z = X) ->
   forall Z : oid, observes w' self Z <-> Z = Y) /\
  (* a shape change of [Y] queues an update of [self], one of [X] does not *)
  pending w' self < pending (shape_changed Y w') self /\
  (self, MemberChange Y "shape") ∈ event_loop (shape_changed Y w') /\
  (X <> Y ->
   pending (shape_changed X w') self = pending w' self /\
   queued (shape_changed X w') self = queued w' self).

End OccOperation.

(** ** OccBooleanOperation: OccCommon, OccCut, OccFuse *)

Module OccBooleanOperation.

Inductive kind : Type := Common | Cut | Fuse.

Record Declaration : Type := {
  shape1 : obj;
  shape2 : obj;
  pave_filler : obj
}.

Definition algo (k : kind) : kclass :=
  match k with
  | Common => BRepAlgoAPI_Common
  | Cut => BRepAlgoAPI_Cut
  | Fuse => BRepAlgoAPI_Fuse
  end.

(** The argument list handed to the kernel class. *)
Definition operation_args (d : Declaration) (s1 s2 : obj) : list obj :=
  let args := [s1; s2] in
  if truthy (pave_filler d) then args ++ [pave_filler d] else args.

Definition _do_operation (k : kind) (d : Declaration) (s1 s2 : obj) : M obj :=
  kernel_new (algo k) (operation_args d s1 s2).

Definition create_shape (k : kind) (d : Declaration) : M unit :=
  if truthy (shape1 d) && truthy (shape2 d) then
    r <- _do_operation k d (shape1 d) (shape2 d) ;; set_self_shape r
  else set_self_shape PyNone.

(** The body of the loop over the children. *)
Definition loop_body (k : kind) (d : Declaration) (c : OccShape) : M unit :=
  s <- get_self_shape ;;
  if truthy s then
    a <- Shape_if_builder s ;;
    b <- Shape_if_builder (shape c) ;;
    r <- _do_operation k d a b ;;
    set_self_shape r
  else set_self_shape (shape c).

Definition update_shape (k : kind) (d : Declaration) (children : list OccShape)
  : M unit :=
  create_shape k d ;;;
  for_each children (loop_body k d).

(** The kernel's binary operation as a value. *)
Definition op (k : kind) (d : Declaration) (a b : obj) : obj :=
  New (algo k) (operation_args d a b) [].

Definition step (k : kind) (d : Declaration) (acc : obj) (c : OccShape) : obj :=
  op k d (as_shape acc) (as_shape (shape c)).

(** One turn of the loop when the accumulated shape may still be
    [None]: the child's shape is then taken as it is. *)
Definition loop_step (k : kind) (d : Declaration) (acc : obj) (c : OccShape) : obj :=
  if truthy acc then step k d acc c else shape c.

(** The children from the first one whose shape is truthy on: the loop
    passes over the children before it while the accumulated shape is
    [None]. *)
Fixpoint from_first_shape (children : list OccShape) : list OccShape :=
  match children with
  | [] => []
  | c :: rest => if truthy (shape c) then c :: rest else from_first_shape rest
  end.

End OccBooleanOperation.

(** ** OccFillet *)

Module OccFillet.

Record Declaration : Type := {
  radius : float;
  edges : list obj
}.

Definition update_shape (d : Declaration) (children : list OccShape) : M unit :=
  match children with
  | [] => raise (ValueError "Fillet must have a child shape to operate on.")
  | child :: _ =>
      s <- call_Shape (shape child) ;;
      b <- kernel_new BRepFilletAPI_MakeFillet [s] ;;
      let es := if nonempty (edges d) then edges d
                else Topology.edges (topology child) in
      b <- for_fold es b (fun b edge =>
             call_add "Add" b [PyFloat (radius d); edge]) ;;
      set_self_shape b
  end.

End OccFillet.

(** ** OccChamfer *)

Module OccChamfer.

Record Declaration : Type := {
  distance : float;
  distance2 : float;
  edges : list obj;
  faces : list obj
}.

(** [for child in self.children(): return child]; [None] when the loop
    does not run. *)
Definition get_shape (children : list OccShape) : option OccShape :=
  match children with
  | [] => None
  | child :: _ => Some child
  end.

(** [d.edges or shape.topology.edges()], likewise for the faces, then
    [zip]. *)
Definition get_edges (d : Declaration) (s : option OccShape)
  : M (list (obj * obj)) :=
  es <- (if nonempty (edges d) then ret (edges d)
         else topo <- getattr_topology s ;; ret (Topology.edges topo)) ;;
  fs <- (if nonempty (faces d) then ret (faces d)
         else topo <- getattr_topology s ;; ret (Topology.faces topo)) ;;
  ret (zip es fs).

(** The argument list of one [Add] call. *)
Definition add_args (d : Declaration) (edge face : obj) : list obj :=
  let args := [PyFloat (distance d)] in
  let args := if truthy (PyFloat (distance2 d))
              then args ++ [PyFloat (distance2 d)] else args in
  args ++ [edge; face].

Definition update_shape (d : Declaration) (children : list OccShape) : M unit :=
  let s := get_shape children in
  sh <- getattr_shape s ;;
  a <- Shape_if_builder sh ;;
  b <- kernel_new BRepFilletAPI_MakeChamfer [a] ;;
  pairs <- get_edges d s ;;
  b <- for_fold pairs b (fun b ef =>
         call_add "Add" b (add_args d (fst ef) (snd ef))) ;;
  set_self_shape b.

End OccChamfer.

(** ** OccOffset and OccThickSolid *)

Module OccOffset.

Inductive offset_mode_t : Type := skin | pipe | recto_verso.
Inductive join_type_t : Type := arc | tangent | intersection_join.

Definition offset_modes (m : offset_mode_t) : obj :=
  match m with
  | skin => Const "BRepOffset_Skin"
  | pipe => Const "BRepOffset_Pipe"
  | recto_verso => Const "BRepOffset_RectoVerso"
  end.

Definition join_types (j : join_type_t) : obj :=
  match j with
  | arc => Const "GeomAbs_Arc"
  | tangent => Const "GeomAbs_Tangent"
  | intersection_join => Const "GeomAbs_Intersection"
  end.

Definition get_shape (children : list OccShape) : option OccShape :=
  match children with
  | [] => None
  | child :: _ => Some child
  end.

End OccOffset.

Module OccThickSolid.
Import OccOffset.

Record Declaration : Type := {
  closing_faces : list obj;
  offset : float;
  tolerance : float;
  offset_mode : offset_mode_t;
  intersection : bool;
  join_type : join_type_t
}.

(** Returns the declared faces, or the first face of the topology; when
    the topology has no face the loop body never runs and the function
    falls off its end, which returns [None]. *)
Definition get_faces (d : Declaration) (s : option OccShape)
  : M (option (list obj)) :=
  if nonempty (closing_faces d) then ret (Some (closing_faces d))
  else
    topo <- getattr_topology s ;;
    match Topology.faces topo with
    | face :: _ => ret (Some [face])
    | [] => ret None
    end.

(** [iter(v)] at the head of a [for] loop. *)
Definition iterate (v : option (list obj)) : M (list obj) :=
  match v with
  | Some l => ret l
  | None => raise (TypeError "'NoneType' object is not iterable")
  end.

(** [faces.IsEmpty()] *)
Definition call_IsEmpty (b : obj) : M bool :=
  match b with
  | New TopTools_ListOfShape _ added =>
      log (KMethod b "IsEmpty" []) ;;; ret (negb (nonempty added))
  | _ => raise (AttributeError "IsEmpty")
  end.

Definition update_shape (d : Declaration) (children : list OccShape) : M unit :=
  let s := get_shape children in
  faces <- kernel_new TopTools_ListOfShape [] ;;
  r <- get_faces d s ;;
  fs <- iterate r ;;
  faces <- for_fold fs faces (fun faces f => call_add "Append" faces [f]) ;;
  empty <- call_IsEmpty faces ;;
  if empty : bool then ret tt
  else
    sh <- getattr_shape s ;;
    a <- call_Shape sh ;;
    r <- kernel_new BRepOffsetAPI_MakeThickSolid
           [a; faces; PyFloat (offset d); PyFloat (tolerance d);
            offset_modes (offset_mode d); PyBool (intersection d);
            PyBool false; join_types (join_type d)] ;;
    set_self_shape r.

End OccThickSolid.

(** ** OccPipe: the observed spline and profile *)

Module OccPipe.
Import OccOperation.

Definition old_spline (w : world) (self : oid) : option oid :=
  p ← heap w !! self; _old_spline p.

Definition old_profile (w : world) (self : oid) : option oid :=
  p ← heap w !! self; _old_profile p.

(** [spline] is the proxy of the declared shape, [spline.proxy]. *)
Definition set_spline (self : oid) (spline : oid) (w : world) : world :=
  let w := match old_spline w self with
           | Some old => unobserve old self w
           | None => w
           end in
  let child := spline in
  let w := observe child self w in
  let w := with_heap (alter (set_old_spline (Some child)) self) w in
  _queue_update self EmptyChange w.

Definition set_profile (self : oid) (profile : oid) (w : world) : world :=
  let w := match old_profile w self with
           | Some old => unobserve old self w
           | None => w
           end in
  let child := profile in
  let w := observe child self w in
  let w := with_heap (alter (set_old_profile (Some child)) self) w in
  _queue_update self EmptyChange w.

Definition set_fill_mode (self : oid) (w : world) : world :=
  _queue_update self EmptyChange w.




End OccPipe.

(** ** OccTransform *)

(** The part of the kernel's [gp] package that [get_transform] drives.  A
    setter overwrites the transform it is called on; [Multiply r t] is
    what [r.Multiply(t)] leaves in [r], the product [r * t]. *)
Class GpKernel : Type := {
  scalar : Type;
  gp_Vec : Type;
  gp_Pnt : Type;
  gp_Dir : Type;
  gp_Ax1 : Type;
  gp_Trsf : Type;
  new_Vec : scalar -> scalar -> scalar -> gp_Vec;
  new_Pnt : scalar -> scalar -> scalar -> gp_Pnt;
  new_Dir : scalar -> scalar -> scalar -> gp_Dir;
  new_Ax1 : gp_Pnt -> gp_Dir -> gp_Ax1;
  new_Trsf : gp_Trsf;
  SetTranslation : gp_Vec -> gp_Trsf -> gp_Trsf;
  SetRotation : gp_Ax1 -> scalar -> gp_Trsf -> gp_Trsf;
  SetMirror : gp_Ax1 -> gp_Trsf -> gp_Trsf;
  SetScale : gp_Pnt -> scalar -> gp_Trsf -> gp_Trsf;
  Multiply : gp_Trsf -> gp_Trsf -> gp_Trsf
}.

Module OccTransform.
Import OccOperation.

Section GetTransform.
Context {K : GpKernel}.

(** The declared sub-operations and the members [get_transform] reads
    from each. *)
Inductive Operation : Type :=
| Translate (x y z : scalar)
| Rotate (point direction : scalar * scalar * scalar) (angle : scalar)
| Mirror (point : scalar * scalar * scalar) (x y z : scalar)
| Scale (point : scalar * scalar * scalar) (s : scalar).

(** A constructor called with an unpacked triple. *)
Definition unpack {A} (f : scalar -> scalar -> scalar -> A)
           (p : scalar * scalar * scalar) : A :=
  let '(x, y, z) := p in f x y z.

(** The loop of [get_transform], with [result] as it stands. *)
Fixpoint get_transform_loop (ops : list Operation) (result : gp_Trsf) : gp_Trsf :=
  match ops with
  | [] => result
  | op :: rest =>
      let t := new_Trsf in
      let t :=
        match op with
        | Translate x y z => SetTranslation (new_Vec x y z) t
        | Rotate point direction angle =>
            SetRotation (new_Ax1 (unpack new_Pnt point) (unpack new_Dir direction))
                        angle t
        | Mirror point x y z =>
            SetMirror (new_Ax1 (unpack new_Pnt point) (new_Dir x y z)) t
        | Scale point s => SetScale (unpack new_Pnt point) s t
        end in
      get_transform_loop rest (Multiply result t)
  end.

Definition get_transform (operations : list Operation) : gp_Trsf :=
  let result := new_Trsf in
  get_transform_loop operations result.

(** The elementary transform of one sub-operation. *)
Definition T (op : Operation) : gp_Trsf :=
  match op with
  | Translate x y z => SetTranslation (new_Vec x y z) new_Trsf
  | Rotate point direction angle =>
      SetRotation (new_Ax1 (unpack new_Pnt point) (unpack new_Dir direction))
                  angle new_Trsf
  | Mirror point x y z =>
      SetMirror (new_Ax1 (unpack new_Pnt point) (new_Dir x y z)) new_Trsf
  | Scale point s => SetScale (unpack new_Pnt point) s new_Trsf
  end.

End GetTransform.

Definition old_shape (w : world) (self : oid) : option oid :=
  p ← heap w !! self; _old_shape p.

(** [shape] is the proxy of the declared shape, [shape.proxy]. *)
Definition set_shape (self : oid) (shape : oid) (w : world) : world :=
  let w := match old_shape w self with
           | Some old => unobserve old self w
           | None => w
           end in
  let w := with_heap (alter (set_old_shape (Some shape)) self) w in
  observe shape self w.

Definition set_translate (self : oid) (w : world) : world :=
  _queue_update self EmptyChange w.

Definition set_rotate (self : oid) (w : world) : world :=
  _queue_update self EmptyChange w.

Definition set_scale (self : oid) (w : world) : world :=
  _queue_update self EmptyChange w.

Definition set_mirror (self : oid) (w : world) : world :=
  _queue_update self EmptyChange w.

End OccTransform.

(** ** Sample inputs *)

Definition box (n : N) : OccShape :=
  {| shape := Maker n; topology := {| Topology.edges := []; Topology.faces := [] |} |}.

Definition idle : rebuild_state := mkState PyNone [].

Definition chamfer_3_2 : OccChamfer.Declaration :=
  {| OccChamfer.distance := 1%float;
     OccChamfer.distance2 := 0%float;
     OccChamfer.edges := [Topo 11; Topo 12; Topo 13];
     OccChamfer.faces := [Topo 21; Topo 22] |}.

Definition thick_solid_undeclared : OccThickSolid.Declaration :=
  {| OccThickSolid.closing_faces := [];
     OccThickSolid.offset := 1%float;
     OccThickSolid.tolerance := 0%float;
     OccThickSolid.offset_mode := OccOffset.skin;
     OccThickSolid.intersection := false;
     OccThickSolid.join_type := OccOffset.arc |}.

(** The proxy [self] is on the heap with a declaration [d] and its
    pending counter at [cnt]. *)
Definition at_node (w : world) (self : oid) (cnt : Z) (d : members) : Prop :=
  exists p : proxy,
    heap w !! self = Some p /\ _update_count p = cnt /\ declaration p = Some d.

(** A fillet proxy on the heap, idle, with its radius declared. *)
Definition fillet_node : proxy :=
  mkProxy (Some {["radius" := PyFloat 1%float]}) 0 None None None [].

Definition one_node : world := mkWorld {[1%positive := fillet_node]} [] [].

(** Ten rapid writes of the radius. *)
Definition ten_writes : list OccOperation.notification :=
  map (fun r => OccOperation.Write "radius" (PyFloat r))
      [2; 3; 4; 5; 6; 7; 8; 9; 10; 11]%float.

(** A pipe (1) whose spline is the wire 2, with another wire 3 at hand. *)
Definition pipe_world : world :=
  mkWorld {[ 1%positive := mkProxy (Some ∅) 0 (Some 2%positive) None None [];
             2%positive := mkProxy (Some ∅) 0 None None None [1%positive];
             3%positive := mkProxy (Some ∅) 0 None None None [] ]}
          [] [].

(** ** The transforms of the kernel over the reals

    [gp_Trsf] read as the affine map it stands for, [x |-> lin x + loc],
    in exact arithmetic (the kernel itself computes in binary64), with
    the setters and the product as the kernel documents them: a
    translation by a vector, a rotation about an axis by an angle, the
    symmetry about an axis, a scaling about a point, and the composition
    [r * t] which applies [t] first.

    Two constructors of the kernel refuse their arguments with a
    Standard_ConstructionError: [gp_Dir] a null vector and [SetScale] a
    null factor.  The exception leaves [get_transform] at once; here
    [None] stands for it, and a value that failed stays failed through
    every later call. *)

Module RealKernel.
Local Open Scope R_scope.

Definition vec3 : Type := R * R * R.
Definition mat3 : Type := vec3 * vec3 * vec3.

Record trsf : Type := mkTrsf { lin : mat3; loc : vec3 }.

Definition dot (a b : vec3) : R :=
  let '(a1, a2, a3) := a in
  let '(b1, b2, b3) := b in
  a1 * b1 + a2 * b2 + a3 * b3.

Definition vadd (a b : vec3) : vec3 :=
  let '(a1, a2, a3) := a in
  let '(b1, b2, b3) := b in
  (a1 + b1, a2 + b2, a3 + b3).

Definition vsub (a b : vec3) : vec3 :=
  let '(a1, a2, a3) := a in
  let '(b1, b2, b3) := b in
  (a1 - b1, a2 - b2, a3 - b3).

Definition mat_vec (m : mat3) (v : vec3) : vec3 :=
  let '(r1, r2, r3) := m in (dot r1 v, dot r2 v, dot r3 v).

Definition transpose (m : mat3) : mat3 :=
  let '((a11, a12, a13), (a21, a22, a23), (a31, a32, a33)) := m in
  ((a11, a21, a31), (a12, a22, a32), (a13, a23, a33)).

Definition mat_mul (m n : mat3) : mat3 :=
  let '(r1, r2, r3) := m in
  let '(c1, c2, c3) := transpose n in
  ((dot r1 c1, dot r1 c2, dot r1 c3),
   (dot r2 c1, dot r2 c2, dot r2 c3),
   (dot r3 c1, dot r3 c2, dot r3 c3)).

Definition identity3 : mat3 := ((1, 0, 0), (0, 1, 0), (0, 0, 1)).

Definition scaling (s : R) : mat3 := ((s, 0, 0), (0, s, 0), (0, 0, s)).

Definition cross (a b : vec3) : vec3 :=
  let '(a1, a2, a3) := a in
  let '(b1, b2, b3) := b in
  (a2 * b3 - a3 * b2, a3 * b1 - a1 * b3, a1 * b2 - a2 * b1).

(** The unit vector of a direction. *)
Definition normalize (x y z : R) : vec3 :=
  let n := sqrt (x * x + y * y + z * z) in (x / n, y / n, z / n).

(** [gp_Dir(x, y, z)]: the unit vector, refused for the null vector. *)
Definition direction (x y z : R) : option vec3 :=
  if Req_dec_T (x * x + y * y + z * z) 0 then None else Some (normalize x y z).

(** Rotation by [a] about the unit vector [u] (Rodrigues). *)
Definition rotation (u : vec3) (a : R) : mat3 :=
  let '(ux, uy, uz) := u in
  let c := cos a in
  let s := sin a in
  ((c + ux * ux * (1 - c), ux * uy * (1 - c) - uz * s, ux * uz * (1 - c) + uy * s),
   (uy * ux * (1 - c) + uz * s, c + uy * uy * (1 - c), uy * uz * (1 - c) - ux * s),
   (uz * ux * (1 - c) - uy * s, uz * uy * (1 - c) + ux * s, c + uz * uz * (1 - c))).

(** The symmetry about the line of the unit vector [u]: [2 u u^T - I]. *)
Definition axial_symmetry (u : vec3) : mat3 :=
  let '(ux, uy, uz) := u in
  ((2 * ux * ux - 1, 2 * ux * uy, 2 * ux * uz),
   (2 * uy * ux, 2 * uy * uy - 1, 2 * uy * uz),
   (2 * uz * ux, 2 * uz * uy, 2 * uz * uz - 1)).

(** The linear map [m] applied about the point [p]: [x |-> p + m (x - p)]. *)
Definition about (p : vec3) (m : mat3) : trsf :=
  mkTrsf m (vsub p (mat_vec m p)).

Definition compose (r t : trsf) : trsf :=
  mkTrsf (mat_mul (lin r) (lin t)) (vadd (mat_vec (lin r) (loc t)) (loc r)).

(** [gp_Ax1(p, d)] *)
Definition axis (p : vec3) (d : option vec3) : option (vec3 * vec3) :=
  match d with
  | Some u => Some (p, u)
  | None => None
  end.

(** A setter that needs an axis. *)
Definition on_axis (f : vec3 -> vec3 -> trsf) (ax : option (vec3 * vec3))
  : option trsf :=
  match ax with
  | Some (p, u) => Some (f p u)
  | None => None
  end.

(** [SetScale(p, s)], refused for a null factor. *)
Definition scale_about (p : vec3) (s : R) : option trsf :=
  if Req_dec_T s 0 then None else Some (about p (scaling s)).

(** [r.Multiply(t)] *)
Definition multiply (r t : option trsf) : option trsf :=
  match r, t with
  | Some r, Some t => Some (compose r t)
  | _, _ => None
  end.

#[export] Instance kernel : GpKernel := {|
  scalar := R;
  gp_Vec := vec3;
  gp_Pnt := vec3;
  gp_Dir := option vec3;
  gp_Ax1 := option (vec3 * vec3);
  gp_Trsf := option trsf;
  new_Vec := fun x y z => (x, y, z);
  new_Pnt := fun x y z => (x, y, z);
  new_Dir := direction;
  new_Ax1 := axis;
  new_Trsf := Some (mkTrsf identity3 (0, 0, 0));
  SetTranslation := fun v _ => Some (mkTrsf identity3 v);
  SetRotation := fun ax a _ => on_axis (fun p u => about p (rotation u a)) ax;
  SetMirror := fun ax _ => on_axis (fun p u => about p (axial_symmetry u)) ax;
  SetScale := fun p s _ => scale_about p s;
  Multiply := multiply
|}.

End RealKernel.


(** * The rest of the module *)

(** ** Runs of the writes and of the event loop *)

(** What reaches the proxies from outside: a write to a parameter, a
    change of a shape that others observe, the rebinding of a reference
    of a Pipe or of a Transform, and a turn of the event loop. *)
Inductive action : Type :=
| SetParameter (self : oid) (field : string) (value : obj)
| ShapeChanged (target : oid)
| SetSpline (self target : oid)
| SetProfile (self target : oid)
| SetShape (self target : oid)
| Fire.

Definition perform (a : action) (w : world) : world :=
  match a with
  | SetParameter self field value => OccOperation.set_parameter self field value w
  | ShapeChanged target => OccOperation.shape_changed target w
  | SetSpline self target => OccPipe.set_spline self target w
  | SetProfile self target => OccPipe.set_profile self target w
  | SetShape self target => OccTransform.set_shape self target w
  | Fire => OccOperation.fire w
  end.

Definition run (actions : list action) (w : world) : world :=
  fold_left (fun w a => perform a w) actions w.

(** The counter of every proxy on the heap is the number of its calls
    waiting on the event loop. *)
Definition balanced (w : world) : Prop :=
  forall o : oid, is_Some (heap w !! o) ->
                  pending w o = Z.of_nat (length (queued w o)).

(** Nothing is queued and every counter is zero. *)
Definition quiescent (w : world) : Prop :=
  event_loop w = [] /\
  forall (o : oid) (p : proxy), heap w !! o = Some p -> _update_count p = 0.

(** The rebuilds of one proxy in the record. *)
Definition rebuilds_of (w : world) (o : oid) : list (oid * change * members) :=
  filter (fun r => fst (fst r) = o) (rebuilds w).

(** A transform (1) with two updates of its own waiting and, between
    them, one of another node (2). *)
Definition busy_world : world :=
  mkWorld {[ 1%positive := mkProxy (Some ∅) 2 None None None [];
             2%positive := mkProxy (Some ∅) 1 None None None [] ]}
          [(1%positive, EmptyChange); (2%positive, EmptyChange);
           (1%positive, MemberChange 2%positive "shape")]
          [].

(** The proxy is on the heap and its declaration is gone. *)
Definition destroyed (w : world) (t : oid) : Prop :=
  exists p : proxy, heap w !! t = Some p /\ declaration p = None.

(** A destroyed fillet (1) that a wire (2) still notifies. *)
Definition stale_world : world :=
  mkWorld {[ 1%positive := mkProxy None 0 None None None [];
             2%positive := mkProxy (Some ∅) 0 None None None [1%positive] ]}
          [] [].

(** A transform (1) bound to the box 2, with another box 3 at hand. *)
Definition transform_world : world :=
  mkWorld {[ 1%positive := mkProxy (Some ∅) 0 None None (Some 2%positive) [];
             2%positive := mkProxy (Some ∅) 0 None None None [1%positive];
             3%positive := mkProxy (Some ∅) 0 None None None [] ]}
          [] [].

(** A pipe (1) whose spline and profile are both the wire 2. *)
Definition shared_world : world :=
  mkWorld {[ 1%positive := mkProxy (Some ∅) 0 (Some 2%positive) (Some 2%positive) None [];
             2%positive := mkProxy (Some ∅) 0 None None None [1%positive];
             3%positive := mkProxy (Some ∅) 0 None None None [] ]}
          [] [].

(** A child that has not been built yet. *)
Definition unbuilt : OccShape :=
  {| shape := PyNone; topology := {| Topology.edges := []; Topology.faces := [] |} |}.

(** The closing faces a ThickSolid ends up with: the declared ones, or
    the first face of the target's topology alone. *)
Definition resolved_closing_faces (d : OccThickSolid.Declaration) (c : OccShape)
  : list obj :=
  if nonempty (OccThickSolid.closing_faces d) then OccThickSolid.closing_faces d
  else firstn 1 (Topology.faces (topology c)).

(** The face list as the proxy hands it to the kernel. *)
Definition face_list (fs : list obj) : obj :=
  New TopTools_ListOfShape [] (map (fun f => [f]) fs).

(** The arguments of the thick-solid builder. *)
Definition thick_solid_args (d : OccThickSolid.Declaration) (c : OccShape)
           (fs : list obj) : list obj :=
  [ShapeOf (shape c); face_list fs;
   PyFloat (OccThickSolid.offset d); PyFloat (OccThickSolid.tolerance d);
   OccOffset.offset_modes (OccThickSolid.offset_mode d);
   PyBool (OccThickSolid.intersection d); PyBool false;
   OccOffset.join_types (OccThickSolid.join_type d)].

(** A solid with two faces, held by a builder. *)
Definition two_faced : OccShape :=
  {| shape := Maker 7;
     topology := {| Topology.edges := []; Topology.faces := [Topo 31; Topo 32] |} |}.

(** ** The rebuilds of Offset, Pipe, ThruSections and Transform

    Each of these ends in one assignment to [self.shape], of a builder
    of a class of its own.  It is given as the function from the
    declaration and the children to the builder assigned, or to the
    exception raised, in which case nothing is assigned. *)

Inductive error : Type :=
| Raised (e : exn)
| IndexError (msg : string).

Inductive built (A : Type) : Type :=
| Built (a : A)
| Failed (e : error).
Arguments Built {A} a.
Arguments Failed {A} e.

Definition and_then {A B} (r : built A) (f : A -> built B) : built B :=
  match r with
  | Built a => f a
  | Failed e => Failed e
  end.

Notation "x <~ r ;; f" := (and_then r (fun x => f))
  (at level 100, r at next level, right associativity).

(** What is known of the objects built elsewhere: which of them have a
    method of a given name besides [Shape], and which are instances of
    [BRepBuilderAPI_MakeWire]. *)
Class Upstream : Type := {
  hasattr : obj -> string -> bool;
  is_MakeWire : obj -> bool
}.

(** What a method of an upstream builder returned: [o.Wire()],
    [o.Vertex()]. *)
Inductive part : Type :=
| WireOf (o : obj)
| VertexOf (o : obj).

(** [l[i]] *)
Definition index {A} (l : list A) (i : nat) : built A :=
  match nth_error l i with
  | Some x => Built x
  | None => Failed (IndexError "list index out of range")
  end.

(** [s.shape] on a local that holds a proxy or [None]. *)
Definition shape_of (s : option OccShape) : built obj :=
  match s with
  | Some c => Built (shape c)
  | None => Failed (Raised (AttributeError "'NoneType' object has no attribute 'shape'"))
  end.

(** [o.Shape()] *)
Definition Shape (o : obj) : built obj :=
  if has_Shape o then Built (ShapeOf o) else Failed (Raised (AttributeError "Shape")).

Module Rebuild.

Section WithUpstream.
Context {U : Upstream}.

(** [o.Wire()] and [o.Vertex()] *)
Definition Wire (o : obj) : built part :=
  if hasattr o "Wire" then Built (WireOf o) else Failed (Raised (AttributeError "Wire")).

Definition Vertex (o : obj) : built part :=
  if hasattr o "Vertex" then Built (VertexOf o)
  else Failed (Raised (AttributeError "Vertex")).

End WithUpstream.

(** The classes of the child proxies that the rebuilds tell apart. *)
Inductive proxy_class : Type :=
| OccVertex
| OccWire
| OtherOccShape
| NotOccShape.

Record Child : Type := { class_of : proxy_class; proxy_of : OccShape }.

(** [isinstance(c, OccShape)] *)
Definition is_OccShape (c : Child) : bool :=
  match class_of c with
  | NotOccShape => false
  | _ => true
  end.

Module Offset.
Import OccOffset.

Record Declaration : Type := {
  offset : float;
  tolerance : float;
  offset_mode : offset_mode_t;
  intersection : bool;
  join_type : join_type_t
}.

Inductive builder : Type :=
| BRepOffsetAPI_MakeOffset (wire : part) (join : obj) (performed : list float)
| BRepOffsetAPI_MakeOffsetShape (s : obj) (offset tolerance : float) (mode : obj)
                                (intersection self_intersection : bool) (join : obj).

(** [b.Perform(x)] *)
Definition Perform (b : builder) (x : float) : builder :=
  match b with
  | BRepOffsetAPI_MakeOffset w j performed =>
      BRepOffsetAPI_MakeOffset w j (performed ++ [x])
  | other => other
  end.

Definition update_shape {U : Upstream} (d : Declaration) (children : list OccShape)
  : built builder :=
  let s := get_shape children in
  sh <~ shape_of s ;;
  if is_MakeWire sh then
    w <~ Rebuild.Wire sh ;;
    let shape_ := BRepOffsetAPI_MakeOffset w (join_types (join_type d)) [] in
    let shape_ := Perform shape_ (offset d) in
    Built shape_
  else
    a <~ (if has_Shape sh then Shape sh else Built sh) ;;
    Built (BRepOffsetAPI_MakeOffsetShape
             a (offset d) (tolerance d) (offset_modes (offset_mode d))
             (intersection d) false (join_types (join_type d))).

End Offset.

Module Pipe.

Inductive fill_mode_t : Type :=
| corrected_frenet | fixed | frenet | constant_normal | darboux
| guide_ac | guide_plan | guide_ac_contact | guide_plan_contact
| discrete_trihedron.

Definition fill_modes (m : fill_mode_t) : obj :=
  match m with
  | corrected_frenet => Const "GeomFill_IsCorrectedFrenet"
  | fixed => Const "GeomFill_IsFixed"
  | frenet => Const "GeomFill_IsFrenet"
  | constant_normal => Const "GeomFill_IsConstantNormal"
  | darboux => Const "GeomFill_IsDarboux"
  | guide_ac => Const "GeomFill_IsGuideAC"
  | guide_plan => Const "GeomFill_IsGuidePlan"
  | guide_ac_contact => Const "GeomFill_IsGuideACWithContact"
  | guide_plan_contact => Const "GeomFill_IsGuidePlanWithContact"
  | discrete_trihedron => Const "GeomFill_IsDiscreteTrihedron"
  end.

(** [spline] and [profile] hold the proxy of the declared shape when one
    is declared; [fill_mode] is one of the ten names or unset. *)
Record Declaration : Type := {
  spline : option OccShape;
  profile : option OccShape;
  fill_mode : option fill_mode_t
}.

Inductive builder : Type :=
| BRepOffsetAPI_MakePipe (spline : part) (profile : obj) (mode : option obj).

Definition update_shape {U : Upstream} (d : Declaration) (children : list Child)
  : built builder :=
  let i := O in
  let shapes := map proxy_of (List.filter is_OccShape children) in
  spline_ <~ match spline d with
             | Some p => Built p
             | None => index shapes i
             end ;;
  let i := match spline d with Some _ => S i | None => i end in
  profile_ <~ match profile d with
              | Some p => Built p
              | None => index shapes i
              end ;;
  w <~ Rebuild.Wire (shape spline_) ;;
  s <~ Shape (shape profile_) ;;
  match fill_mode d with
  | Some m => Built (BRepOffsetAPI_MakePipe w s (Some (fill_modes m)))
  | None => Built (BRepOffsetAPI_MakePipe w s None)
  end.

(** The pipe swept along the wire of one proxy with the shape of another
    as its section. *)
Definition sweep {U : Upstream} (d : Declaration) (spline_ profile_ : OccShape)
  : built builder :=
  w <~ Rebuild.Wire (shape spline_) ;;
  s <~ Shape (shape profile_) ;;
  Built (BRepOffsetAPI_MakePipe w s (option_map fill_modes (fill_mode d))).

End Pipe.

Module ThruSections.

Record Declaration : Type := {
  solid : bool;
  ruled : bool;
  precision : float
}.

(** One call on the loft builder. *)
Inductive added : Type :=
| AddVertex (v : part)
| AddWire (w : part).

Inductive builder : Type :=
| BRepOffsetAPI_ThruSections (solid ruled : bool) (precision : float)
                             (sections : list added).

Definition add (b : builder) (a : added) : builder :=
  match b with
  | BRepOffsetAPI_ThruSections s r p sections =>
      BRepOffsetAPI_ThruSections s r p (sections ++ [a])
  end.

(** The loop over the children, with the builder as it stands. *)
Fixpoint add_children {U : Upstream} (children : list Child) (shape_ : builder)
  : built builder :=
  match children with
  | [] => Built shape_
  | child :: rest =>
      match class_of child with
      | OccVertex =>
          v <~ Rebuild.Vertex (shape (proxy_of child)) ;;
          add_children rest (add shape_ (AddVertex v))
      | OccWire =>
          w <~ Rebuild.Wire (shape (proxy_of child)) ;;
          add_children rest (add shape_ (AddWire w))
      | _ => add_children rest shape_
      end
  end.

Definition update_shape {U : Upstream} (d : Declaration) (children : list Child)
  : built builder :=
  let shape_ := BRepOffsetAPI_ThruSections (solid d) (ruled d) (precision d) [] in
  add_children children shape_.

(** The call a child contributes when its shape has the method. *)
Definition section_of (child : Child) : list added :=
  match class_of child with
  | OccVertex => [AddVertex (VertexOf (shape (proxy_of child)))]
  | OccWire => [AddWire (WireOf (shape (proxy_of child)))]
  | _ => []
  end.

(** The method the loop calls on the shape of a child, if any. *)
Definition method_of (child : Child) : option string :=
  match class_of child with
  | OccVertex => Some "Vertex"
  | OccWire => Some "Wire"
  | _ => None
  end.

End ThruSections.

Module Transform.
Import OccTransform.

Section WithKernel.
Context {K : GpKernel}.

(** [target] is the member [shape] of the declaration: the proxy of the
    declared shape when one is declared. *)
Record Declaration : Type := {
  target : option OccShape;
  operations : list Operation
}.

Inductive builder : Type :=
| BRepBuilderAPI_Transform (s : obj) (t : gp_Trsf) (make_copy : bool).

(** [for child in self.children(): return child] *)
Definition get_shape (children : list OccShape) : option OccShape :=
  match children with
  | [] => None
  | child :: _ => Some child
  end.

Definition update_shape (d : Declaration) (children : list OccShape)
  : built builder :=
  let '(make_copy, s) :=
    match target d with
    | Some p => (true, Some p)
    | None => (false, get_shape children)
    end in
  let t := get_transform (operations d) in
  sh <~ shape_of s ;;
  a <~ (if has_Shape sh then Shape sh else Built sh) ;;
  Built (BRepBuilderAPI_Transform a t make_copy).

End WithKernel.

End Transform.

End Rebuild.

(** Upstream builders numbered below 100 are wire makers, those from 100
    up are vertex makers. *)
#[export] Instance sample_upstream : Upstream := {|
  hasattr := fun o name =>
    match o with
    | Maker n => if (n <? 100)%N then String.eqb name "Wire"
                 else String.eqb name "Vertex"
    | _ => false
    end;
  is_MakeWire := fun o =>
    match o with
    | Maker n => (n <? 100)%N
    | _ => false
    end
|}.

Definition wire_child (n : N) : Rebuild.Child :=
  {| Rebuild.class_of := Rebuild.OccWire; Rebuild.proxy_of := box n |}.

Definition vertex_child (n : N) : Rebuild.Child :=
  {| Rebuild.class_of := Rebuild.OccVertex; Rebuild.proxy_of := box n |}.

Definition plain_pipe : Rebuild.Pipe.Declaration :=
  {| Rebuild.Pipe.spline := None; Rebuild.Pipe.profile := None;
     Rebuild.Pipe.fill_mode := None |}.

Definition loft : Rebuild.ThruSections.Declaration :=
  {| Rebuild.ThruSections.solid := true; Rebuild.ThruSections.ruled := false;
     Rebuild.ThruSections.precision := 1%float |}.

(** A child that is a shape of some other class, and one that is no
    shape. *)
Definition other_child (n : N) : Rebuild.Child :=
  {| Rebuild.class_of := Rebuild.OtherOccShape; Rebuild.proxy_of := box n |}.

Definition sample_offset : Rebuild.Offset.Declaration :=
  {| Rebuild.Offset.offset := 2%float;
     Rebuild.Offset.tolerance := 0%float;
     Rebuild.Offset.offset_mode := OccOffset.skin;
     Rebuild.Offset.intersection := false;
     Rebuild.Offset.join_type := OccOffset.arc |}.

(** ** DeclaracadPlugin: the dock layout ([ui/plugin.py]) *)

Module DeclaracadPlugin.

(** A layout dict: item names by position, in insertion order, each key
    once. *)
Abbreviation dict := (list (string * list string)).

(** The layout nodes of the dock area: an item by its name, and the tab
    and split layouts over nodes. *)
Inductive node : Type :=
| Item (name : string)
| TabLayout (items : list node)
| VSplitLayout (items : list node)
| HSplitLayout (items : list node).

(** A dock bar; its member [position] is an enum of the four sides. *)
Record DockBarLayout : Type := { bar_items : list node; position : string }.

Definition sides : list string := ["top"; "right"; "bottom"; "left"].

Definition is_side (k : string) : bool :=
  existsb (String.eqb k) sides.

(** [AreaLayout(item, dock_bars=...)]; [AreaLayout()] has no item and no
    bar. *)
Record AreaLayout : Type := { item : option node; dock_bars : list DockBarLayout }.

Inductive raised : Type :=
| KeyError (key : string)
| EnvironmentError (msg : string)
| ValueError (value : string).

(** [DockBarLayout] called with the items and [position=side]: a
    position that is not one of the four sides is refused with a
    ValueError. *)
Definition new_DockBarLayout (items : list string) (side : string)
  : raised + DockBarLayout :=
  if is_side side then inr {| bar_items := map Item items; position := side |}
  else inl (ValueError side).

(** The list comprehension over [layout.items()]: a bar for every entry
    that has items, in the order of the dict, up to the first position
    that is refused. *)
Fixpoint dock_bars_of (layout : list (string * list string))
  : raised + list DockBarLayout :=
  match layout with
  | [] => inr []
  | (side, items) :: rest =>
      if nonempty items then
        match new_DockBarLayout items side with
        | inl e => inl e
        | inr bar =>
            match dock_bars_of rest with
            | inl e => inl e
            | inr bars => inr (bar :: bars)
            end
        end
      else dock_bars_of rest
  end.

(** [d.pop(key)]: the value and the dict without the key, or nothing when
    the key is absent. *)
Fixpoint pop (key : string) (d : dict) : option (list string * dict) :=
  match d with
  | [] => None
  | (k, v) :: rest =>
      if String.eqb k key then Some (v, rest)
      else match pop key rest with
           | Some (found, rest') => Some (found, (k, v) :: rest')
           | None => None
           end
  end.

(** [d.pop(key, default)] *)
Definition pop_default (key : string) (default : list string) (d : dict)
  : list string * dict :=
  match pop key d with
  | Some r => r
  | None => (default, d)
  end.

(** What a call leaves behind: what it returned or raised, the member
    [dock_layout], and the dict it was given, which it pops from. *)
Record outcome_of_refresh : Type := {
  returned : raised + option AreaLayout;
  dock_layout : option AreaLayout;
  layout_after : dict
}.

Definition _refresh_layout (dock_items : list string)
           (dock_layout0 : option AreaLayout) (layout : dict)
  : outcome_of_refresh :=
  if negb (nonempty dock_items) then
    {| returned := inr (Some {| item := None; dock_bars := [] |});
       dock_layout := dock_layout0; layout_after := layout |}
  else
    match pop "main" layout with
    | None => {| returned := inl (KeyError "main");
                 dock_layout := dock_layout0; layout_after := layout |}
    | Some (items, layout) =>
        if negb (nonempty items) then
          {| returned := inl (EnvironmentError
                                "At least one main layout item must be defined!");
             dock_layout := dock_layout0; layout_after := layout |}
        else
          let '(left_items, layout) := pop_default "main-left" [] layout in
          let '(bottom_items, layout) := pop_default "main-bottom" [] layout in
          let main := TabLayout (map Item items) in
          let main := if nonempty bottom_items
                      then VSplitLayout (main :: map Item bottom_items) else main in
          let main := if nonempty left_items
                      then HSplitLayout (map Item left_items ++ [main]) else main in
          match dock_bars_of layout with
          | inl e => {| returned := inl e;
                        dock_layout := dock_layout0; layout_after := layout |}
          | inr dockbars =>
              {| returned := inr None;
                 dock_layout := Some {| item := Some main; dock_bars := dockbars |};
                 layout_after := layout |}
          end
    end.

(** The dict without a key. *)
Definition without (key : string) (d : dict) : dict :=
  List.filter (fun e => negb (String.eqb (fst e) key)) d.

(** The positions that make up the main area. *)
Definition main_keys : list string := ["main"; "main-left"; "main-bottom"].

Definition is_main_key (k : string) : bool :=
  existsb (String.eqb k) main_keys.

End DeclaracadPlugin.

Definition sample_layout : list (string * list string) :=
  [("main", ["editor"]); ("left", ["toolbox"]); ("right", []);
   ("main-bottom", ["console"]); ("bottom", ["log"])].

(** * Properties *)

(** ** Boolean operations *)

Section BooleanFacts.
Import OccBooleanOperation.
Variables (k : kind) (d : Declaration).
Local Abbreviation loop_body := (loop_body k d).
Local Abbreviation loop_step := (loop_step k d).

Lemma Shape_if_builder_run (o : obj) (st : rebuild_state) :
  fst (Shape_if_builder o st) = Return (as_shape o) /\
  self_shape (snd (Shape_if_builder o st)) = self_shape st.
Proof.
  unfold Shape_if_builder, call_Shape, as_shape.
  destruct (has_Shape o); simpl; auto.
Qed.

Lemma loop_body_run (c : OccShape) (st : rebuild_state) :
  fst (loop_body c st) = Return tt /\
  self_shape (snd (loop_body c st)) = loop_step (self_shape st) c.
Proof.
  unfold OccBooleanOperation.loop_body, OccBooleanOperation.loop_step, step, op, bind, get_self_shape. simpl.
  destruct (truthy (self_shape st)); [|simpl; auto].
  destruct (Shape_if_builder_run (self_shape st) st) as [E1 _].
  destruct (Shape_if_builder (self_shape st) st) as [r1 st1]. simpl in E1. subst r1.
  destruct (Shape_if_builder_run (shape c) st1) as [E2 _].
  destruct (Shape_if_builder (shape c) st1) as [r2 st2]. simpl in E2. subst r2.
  simpl. auto.
Qed.

Lemma loop_run (children : list OccShape) (st : rebuild_state) :
  fst (for_each children loop_body st) = Return tt /\
  self_shape (snd (for_each children loop_body st))
    = fold_left loop_step children (self_shape st).
Proof.
  revert st. induction children as [|c cs IH]; intros st; simpl; [auto|].
  unfold bind.
  destruct (loop_body_run c st) as [E1 E2].
  destruct (loop_body c st) as [r st1]. simpl in E1, E2. subst r.
  rewrite <- E2. apply IH.
Qed.

Lemma create_shape_run (st : rebuild_state) :
  fst (create_shape k d st) = Return tt /\
  self_shape (snd (create_shape k d st))
    = if truthy (shape1 d) && truthy (shape2 d)
      then op k d (shape1 d) (shape2 d) else PyNone.
Proof.
  unfold create_shape. destruct (truthy (shape1 d) && truthy (shape2 d)); simpl; auto.
Qed.

Lemma update_shape_run (children : list OccShape) (st : rebuild_state) :
  fst (update_shape k d children st) = Return tt /\
  self_shape (snd (update_shape k d children st))
    = fold_left loop_step children
        (if truthy (shape1 d) && truthy (shape2 d)
         then op k d (shape1 d) (shape2 d) else PyNone).
Proof.
  unfold update_shape. unfold bind.
  destruct (create_shape_run st) as [E1 E2].
  destruct (create_shape k d st) as [r st1]. simpl in E1, E2. subst r.
  rewrite <- E2. apply loop_run.
Qed.

Lemma op_truthy (a b : obj) : truthy (op k d a b) = true.
Proof. reflexivity. Qed.

Lemma op_as_shape (a b : obj) : as_shape (op k d a b) = ShapeOf (op k d a b).
Proof. unfold as_shape, op. destruct k; reflexivity. Qed.

Lemma op_inj (a b a' b' : obj) : op k d a b = op k d a' b' -> a = a' /\ b = b'.
Proof.
  unfold op, operation_args. destruct (truthy (pave_filler d)); simpl;
    intros H; inversion H; auto.
Qed.

Lemma size_op (a b : obj) : (size a < size (op k d a b))%nat.
Proof.
  unfold op, operation_args. destruct (truthy (pave_filler d)); simpl; lia.
Qed.

(** Once the accumulator holds a kernel result it stays one, and the
    loop is the plain left fold of [step]. *)
Lemma fold_loop_step_op (children : list OccShape) (a b : obj) :
  fold_left loop_step children (op k d a b)
    = fold_left (step k d) children (op k d a b).
Proof.
  revert a b. induction children as [|c cs IH]; intros a b; simpl; [reflexivity|].
  unfold OccBooleanOperation.loop_step at 2. rewrite op_truthy. unfold step at 1 3. apply IH.
Qed.

Lemma fold_step_snoc (l : list OccShape) (c : OccShape) (a b : obj) :
  fold_left (step k d) (l ++ [c]) (op k d a b)
    = op k d (ShapeOf (fold_left (step k d) l (op k d a b))) (as_shape (shape c)).
Proof.
  rewrite fold_left_app. simpl. unfold step at 1. f_equal.
  destruct l as [|x l'] using rev_ind.
  - simpl. apply op_as_shape.
  - rewrite fold_left_app. simpl. unfold step at 1 3. apply op_as_shape.
Qed.

Lemma size_fold_step (l : list OccShape) (a b : obj) :
  (size (op k d a b) <= size (fold_left (step k d) l (op k d a b)))%nat.
Proof.
  induction l as [|c l IH] using rev_ind; [simpl; lia|].
  rewrite fold_step_snoc.
  pose proof (size_op (ShapeOf (fold_left (step k d) l (op k d a b)))
                      (as_shape (shape c))) as H.
  change (size (ShapeOf ?x)) with (S (size x)) in H. lia.
Qed.

(** The fold determines the sequence of child shapes. *)
Lemma fold_step_snoc_neq (l : list OccShape) (c : OccShape) (a b : obj) :
  fold_left (step k d) (l ++ [c]) (op k d a b) <> op k d a b.
Proof.
  rewrite fold_step_snoc. intros H.
  pose proof (size_fold_step l a b) as Hs.
  pose proof (size_op (ShapeOf (fold_left (step k d) l (op k d a b)))
                      (as_shape (shape c))) as Hlt.
  rewrite H in Hlt.
  change (size (ShapeOf ?x)) with (S (size x)) in Hlt. lia.
Qed.

(** The fold determines the sequence of child shapes. *)
Lemma fold_step_inj (l1 l2 : list OccShape) (a b : obj) :
  fold_left (step k d) l1 (op k d a b) = fold_left (step k d) l2 (op k d a b) ->
  map (fun c => as_shape (shape c)) l1 = map (fun c => as_shape (shape c)) l2.
Proof.
  revert l2. induction l1 as [|c1 l1 IH] using rev_ind; intros l2 H.
  - destruct l2 as [|c2 l2 _] using rev_ind; [reflexivity|].
    exfalso. symmetry in H. revert H. apply fold_step_snoc_neq.
  - destruct l2 as [|c2 l2 _] using rev_ind.
    + exfalso. revert H. apply fold_step_snoc_neq.
    + rewrite !fold_step_snoc in H. apply op_inj in H. destruct H as [Ha Hb].
      inversion Ha as [Ha']. rewrite !map_app. simpl. rewrite Hb.
      f_equal. apply IH. exact Ha'.
Qed.

End BooleanFacts.

(** The loop while the accumulated shape is still none. *)
Section BooleanMore.
Import OccBooleanOperation.
Variables (k : kind) (d : Declaration).

Lemma fold_loop_step_falsy (skipped : list OccShape) (acc : obj) (c : OccShape)
      (rest : list OccShape) :
  truthy acc = false ->
  Forall (fun s => truthy (shape s) = false) skipped ->
  fold_left (loop_step k d) (skipped ++ c :: rest) acc
  = fold_left (loop_step k d) rest (shape c).
Proof.
  revert acc. induction skipped as [|s skipped IH]; intros acc Hacc Hs; simpl.
  - unfold loop_step at 2. rewrite Hacc. reflexivity.
  - inversion Hs as [|? ? Hs1 Hs2]; subst.
    unfold loop_step at 2. rewrite Hacc. apply IH; assumption.
Qed.

Lemma fold_loop_step_none (skipped : list OccShape) (acc : obj) :
  truthy acc = false ->
  Forall (fun s => truthy (shape s) = false) skipped ->
  truthy (fold_left (loop_step k d) skipped acc) = false.
Proof.
  revert acc. induction skipped as [|s skipped IH]; intros acc Hacc Hs; simpl.
  - exact Hacc.
  - inversion Hs as [|? ? Hs1 Hs2]; subst.
    unfold loop_step at 2. rewrite Hacc. apply IH; assumption.
Qed.

Lemma fold_loop_step_truthy (rest : list OccShape) (acc : obj) :
  truthy acc = true ->
  fold_left (loop_step k d) rest acc = fold_left (step k d) rest acc.
Proof.
  intros Hacc. destruct rest as [|c rest]; [reflexivity|].
  simpl. unfold loop_step at 2. rewrite Hacc. unfold step at 1 3.
  apply fold_loop_step_op.
Qed.

Lemma fold_step_truthy (rest : list OccShape) (acc : obj) :
  truthy acc = true -> truthy (fold_left (step k d) rest acc) = true.
Proof.
  intros Hacc. destruct rest as [|c rest _] using rev_ind; [exact Hacc|].
  rewrite fold_left_app. reflexivity.
Qed.

Lemma from_first_shape_split (children : list OccShape) :
  exists skipped : list OccShape,
    children = skipped ++ from_first_shape children /\
    Forall (fun s => truthy (shape s) = false) skipped /\
    match from_first_shape children with
    | [] => True
    | c :: _ => truthy (shape c) = true
    end.
Proof.
  induction children as [|c children (skipped & E & Hs & Hf)].
  - exists []. repeat split. constructor.
  - simpl. destruct (truthy (shape c)) eqn:Hc.
    + exists []. repeat split; [constructor|exact Hc].
    + exists (c :: skipped). split; [simpl; f_equal; exact E|].
      split; [constructor; assumption|exact Hf].
Qed.

(** While the accumulated shape is none, a turn of the loop takes the
    child's shape and calls nothing. *)
Lemma loop_body_falsy (c : OccShape) (st : rebuild_state) :
  truthy (self_shape st) = false ->
  loop_body k d c st = (Return tt, mkState (shape c) (kernel st)).
Proof.
  intros H. unfold loop_body, bind, get_self_shape. rewrite H. reflexivity.
Qed.

Lemma loop_skips (skipped : list OccShape) (st : rebuild_state) :
  truthy (self_shape st) = false ->
  Forall (fun s => truthy (shape s) = false) skipped ->
  kernel (snd (for_each skipped (loop_body k d) st)) = kernel st.
Proof.
  revert st. induction skipped as [|s skipped IH]; intros st Hst Hs; [reflexivity|].
  inversion Hs as [|? ? Hs1 Hs2]; subst.
  cbn [for_each]. unfold bind. rewrite loop_body_falsy by exact Hst.
  rewrite IH; [reflexivity|exact Hs1|exact Hs2].
Qed.

Lemma loop_seeds (skipped : list OccShape) (c : OccShape) (st : rebuild_state) :
  truthy (self_shape st) = false ->
  Forall (fun s => truthy (shape s) = false) skipped ->
  kernel (snd (for_each (skipped ++ [c]) (loop_body k d) st)) = kernel st.
Proof.
  revert st. induction skipped as [|s skipped IH]; intros st Hst Hs.
  - cbn [app for_each]. unfold bind. rewrite loop_body_falsy by exact Hst. reflexivity.
  - inversion Hs as [|? ? Hs1 Hs2]; subst.
    cbn [app for_each]. unfold bind. rewrite loop_body_falsy by exact Hst.
    rewrite IH; [reflexivity|exact Hs1|exact Hs2].
Qed.

End BooleanMore.

Section BooleanClaims.
Import OccBooleanOperation.

(** C1: with both explicit operands present, a rebuild of a boolean node
    never raises and leaves the left fold of the kernel operation over
    the children in declared order, starting from [op(shape1, shape2)];
    for a Cut with children [C, D] this is Cut(Cut(Cut(A,B),C),D); and
    two child lists that hand different shape sequences to the kernel
    give different results, so swapping two children with different
    shapes changes the result. *)
Theorem boolean_update_shape_left_fold :
  forall (k : kind) (d : Declaration) (children : list OccShape)
         (st : rebuild_state),
    truthy (shape1 d) = true ->
    truthy (shape2 d) = true ->
    fst (update_shape k d children st) = Return tt /\
    self_shape (snd (update_shape k d children st))
      = fold_left (step k d) children (op k d (shape1 d) (shape2 d)) /\
    (forall C D : OccShape,
        children = [C; D] ->
        self_shape (snd (update_shape Cut d children st))
          = op Cut d
               (ShapeOf (op Cut d
                           (ShapeOf (op Cut d (shape1 d) (shape2 d)))
                           (as_shape (shape C))))
               (as_shape (shape D))) /\
    (forall (children' : list OccShape) (st' : rebuild_state),
        map (fun c => as_shape (shape c)) children
          <> map (fun c => as_shape (shape c)) children' ->
        self_shape (snd (update_shape k d children st))
          <> self_shape (snd (update_shape k d children' st'))) /\
    (forall C D : OccShape,
        children = [C; D] ->
        as_shape (shape C) <> as_shape (shape D) ->
        self_shape (snd (update_shape k d [C; D] st))
          <> self_shape (snd (update_shape k d [D; C] st))).
Proof.
  intros k d children st H1 H2.
  assert (Hrun : forall (k0 : kind) l s,
             self_shape (snd (update_shape k0 d l s))
             = fold_left (step k0 d) l (op k0 d (shape1 d) (shape2 d))).
  { intros k0 l s. destruct (update_shape_run k0 d l s) as [_ E].
    rewrite E, H1, H2. simpl. apply fold_loop_step_op. }
  split; [apply update_shape_run|].
  split; [apply Hrun|].
  split.
  { intros C D ->. rewrite Hrun. simpl. unfold step.
    rewrite !op_as_shape. reflexivity. }
  split.
  { intros children' st' Hne Heq. apply Hne.
    rewrite !Hrun in Heq. eapply fold_step_inj. exact Heq. }
  intros C D -> Hne Heq. rewrite !Hrun in Heq.
  apply fold_step_inj in Heq. simpl in Heq. inversion Heq. contradiction.
Qed.

(** C2, as the code has it: with an explicit operand absent,
    [create_shape] leaves the result none, calls nothing in the kernel
    and raises nothing, and so does the rebuild of a node without
    children.  With children the rebuild works on them alone, in declared
    order: the children whose shape is none are passed over, the shape of
    the first child that has one becomes the result as it is, with no
    kernel call, and every child after that one is folded in with the
    kernel operation (whose calls are taken to return).  The result is
    none when no child has a shape, and only then; when no child has a
    shape, or the first child that has one is the last child, the rebuild
    calls nothing in the kernel and raises nothing. *)
Theorem boolean_absent_operand_rebuild :
  forall (k : kind) (d : Declaration) (children : list OccShape)
         (st : rebuild_state),
    truthy (shape1 d) = false \/ truthy (shape2 d) = false ->
    create_shape k d st = (Return tt, mkState PyNone (kernel st)) /\
    update_shape k d [] st = (Return tt, mkState PyNone (kernel st)) /\
    match from_first_shape children with
    | [] =>
        fst (update_shape k d children st) = Return tt /\
        truthy (self_shape (snd (update_shape k d children st))) = false /\
        kernel (snd (update_shape k d children st)) = kernel st
    | c :: rest =>
        self_shape (snd (update_shape k d children st))
          = fold_left (step k d) rest (shape c) /\
        truthy (self_shape (snd (update_shape k d children st))) = true /\
        (rest = [] ->
         fst (update_shape k d children st) = Return tt /\
         kernel (snd (update_shape k d children st)) = kernel st)
    end.
Proof.
  intros k d children st H.
  assert (E : truthy (shape1 d) && truthy (shape2 d) = false).
  { destruct H as [-> | ->]; [reflexivity | apply andb_false_r]. }
  assert (Hc : create_shape k d st = (Return tt, mkState PyNone (kernel st))).
  { unfold create_shape. rewrite E. reflexivity. }
  split; [exact Hc|].
  split; [unfold update_shape, bind; rewrite Hc; reflexivity|].
  destruct (from_first_shape_split children) as (skipped & Hsplit & Hskipped & Hfirst).
  assert (Hk : forall l, Forall (fun s => truthy (shape s) = false) l ->
               kernel (snd (update_shape k d l st)) = kernel st).
  { intros l Hl. unfold update_shape, bind. rewrite Hc.
    apply (loop_skips k d l (mkState PyNone (kernel st))); [reflexivity|exact Hl]. }
  destruct (from_first_shape children) as [|c rest].
  - rewrite app_nil_r in Hsplit. subst skipped.
    split; [apply update_shape_run|]. split; [|apply Hk, Hskipped].
    destruct (update_shape_run k d children st) as [_ ->]. rewrite E.
    apply fold_loop_step_none; [reflexivity|exact Hskipped].
  - assert (Hr : self_shape (snd (update_shape k d children st))
                 = fold_left (step k d) rest (shape c)).
    { destruct (update_shape_run k d children st) as [_ ->]. rewrite E, Hsplit.
      rewrite fold_loop_step_falsy by (reflexivity || exact Hskipped).
      apply fold_loop_step_truthy, Hfirst. }
    split; [exact Hr|]. split.
    + rewrite Hr. apply fold_step_truthy, Hfirst.
    + intros ->. split; [apply update_shape_run|].
      rewrite Hsplit. unfold update_shape, bind. rewrite Hc.
      apply (loop_seeds k d skipped c (mkState PyNone (kernel st)));
        [reflexivity|exact Hskipped].
Qed.

End BooleanClaims.

Lemma boolean_update_shape_left_fold_witness :
  self_shape (snd (OccBooleanOperation.update_shape OccBooleanOperation.Cut
     {| OccBooleanOperation.shape1 := Topo 1;
        OccBooleanOperation.shape2 := Topo 2;
        OccBooleanOperation.pave_filler := PyNone |}
     [box 3; box 4] idle))
  = New BRepAlgoAPI_Cut
      [ShapeOf (New BRepAlgoAPI_Cut
                  [ShapeOf (New BRepAlgoAPI_Cut [Topo 1; Topo 2] []);
                   ShapeOf (Maker 3)] []);
       ShapeOf (Maker 4)] [].
Proof.
  exact (proj1 (proj2 (boolean_update_shape_left_fold OccBooleanOperation.Cut
     {| OccBooleanOperation.shape1 := Topo 1;
        OccBooleanOperation.shape2 := Topo 2;
        OccBooleanOperation.pave_filler := PyNone |}
     [box 3; box 4] idle eq_refl eq_refl))).
Defined.

Lemma boolean_absent_operand_children_counterexample :
  ~ (forall (k : OccBooleanOperation.kind) (d : OccBooleanOperation.Declaration)
            (children : list OccShape) (st : rebuild_state),
        truthy (OccBooleanOperation.shape1 d) = false \/
        truthy (OccBooleanOperation.shape2 d) = false ->
        self_shape (snd (OccBooleanOperation.update_shape k d children st)) = PyNone).
Proof.
  intros H.
  specialize (H OccBooleanOperation.Cut
     {| OccBooleanOperation.shape1 := PyNone;
        OccBooleanOperation.shape2 := Topo 2;
        OccBooleanOperation.pave_filler := PyNone |}
     [box 3; box 4] idle (or_introl eq_refl)).
  vm_compute in H. discriminate H.
Qed.

Lemma boolean_absent_operand_rebuild_witness :
  self_shape (snd (OccBooleanOperation.update_shape OccBooleanOperation.Cut
     {| OccBooleanOperation.shape1 := PyNone;
        OccBooleanOperation.shape2 := Topo 2;
        OccBooleanOperation.pave_filler := PyNone |}
     [unbuilt; box 3; box 4] idle))
  = New BRepAlgoAPI_Cut [ShapeOf (Maker 3); ShapeOf (Maker 4)] [].
Proof.
  exact (proj1 (proj2 (proj2 (boolean_absent_operand_rebuild
     OccBooleanOperation.Cut
     {| OccBooleanOperation.shape1 := PyNone;
        OccBooleanOperation.shape2 := Topo 2;
        OccBooleanOperation.pave_filler := PyNone |}
     [unbuilt; box 3; box 4] idle (or_introl eq_refl))))).
Defined.

(** ** Builders fed in a loop: fillet, chamfer, thick solid *)

Lemma Shape_if_builder_eq (o : obj) (st : rebuild_state) :
  Shape_if_builder o st
  = (Return (as_shape o),
     mkState (self_shape st)
             (kernel st ++ if has_Shape o then [KMethod o "Shape" []] else [])).
Proof.
  unfold Shape_if_builder, call_Shape, as_shape.
  destruct (has_Shape o); simpl.
  - reflexivity.
  - rewrite app_nil_r. destruct st; reflexivity.
Qed.

Lemma for_fold_add_run {A} (meth : string) (g : A -> list obj) (xs : list A)
      (cls : kclass) (cargs : list obj) (added : list (list obj))
      (st : rebuild_state) :
  for_fold xs (New cls cargs added) (fun b x => call_add meth b (g x)) st
  = (Return (New cls cargs (added ++ map g xs)),
     mkState (self_shape st)
             (kernel st ++ add_calls meth cls cargs added (map g xs))).
Proof.
  revert added st. induction xs as [|x xs IH]; intros added st; simpl.
  - rewrite !app_nil_r. destruct st; reflexivity.
  - unfold bind at 1. simpl. rewrite IH. simpl.
    rewrite <- !app_assoc. reflexivity.
Qed.

Lemma submitted_app (meth : string) (l1 l2 : list kcall) :
  submitted meth (l1 ++ l2) = submitted meth l1 ++ submitted meth l2.
Proof. unfold submitted. apply flat_map_app. Qed.

Lemma submitted_add_calls (meth : string) (cls : kclass) (cargs : list obj)
      (added argss : list (list obj)) :
  submitted meth (add_calls meth cls cargs added argss) = argss.
Proof.
  revert added. induction argss as [|a rest IH]; intros added; [reflexivity|].
  simpl. rewrite String.eqb_refl. simpl. f_equal.
  apply IH.
Qed.

Lemma zip_combine {A B} (xs : list A) (ys : list B) : zip xs ys = combine xs ys.
Proof.
  revert ys. induction xs as [|x xs IH]; intros [|y ys]; simpl; try reflexivity.
  f_equal. apply IH.
Qed.

Lemma zip_length {A B} (xs : list A) (ys : list B) :
  length (zip xs ys) = Nat.min (length xs) (length ys).
Proof. rewrite zip_combine. apply length_combine. Qed.

Lemma zip_firstn {A B} (xs : list A) (ys : list B) :
  zip xs ys = combine (firstn (Nat.min (length xs) (length ys)) xs)
                      (firstn (Nat.min (length xs) (length ys)) ys).
Proof.
  revert ys. induction xs as [|x xs IH]; intros [|y ys]; simpl; try reflexivity.
  f_equal. apply IH.
Qed.

Example zip_three_two :
  zip [Topo 11; Topo 12; Topo 13] [Topo 21; Topo 22]
  = [(Topo 11, Topo 21); (Topo 12, Topo 22)].
Proof. reflexivity. Qed.

Example fillet_of_box :
  OccFillet.update_shape
    {| OccFillet.radius := 2%float; OccFillet.edges := [Topo 5] |} [box 3] idle
  = (Return tt,
     mkState (New BRepFilletAPI_MakeFillet [ShapeOf (Maker 3)]
                  [[PyFloat 2%float; Topo 5]])
             [KMethod (Maker 3) "Shape" [];
              KNew BRepFilletAPI_MakeFillet [ShapeOf (Maker 3)];
              KMethod (New BRepFilletAPI_MakeFillet [ShapeOf (Maker 3)] [])
                      "Add" [PyFloat 2%float; Topo 5]]).
Proof. reflexivity. Qed.

Lemma fillet_update_shape_child (d : OccFillet.Declaration) (c : OccShape)
      (rest : list OccShape) (st : rebuild_state) :
  OccFillet.update_shape d (c :: rest) st
  = if has_Shape (shape c) then
      let es := if nonempty (OccFillet.edges d) then OccFillet.edges d
                else Topology.edges (topology c) in
      let argss := map (fun edge => [PyFloat (OccFillet.radius d); edge]) es in
      (Return tt,
       mkState (New BRepFilletAPI_MakeFillet [ShapeOf (shape c)] argss)
               ((kernel st ++ [KMethod (shape c) "Shape" []]
                           ++ [KNew BRepFilletAPI_MakeFillet [ShapeOf (shape c)]])
                  ++ add_calls "Add" BRepFilletAPI_MakeFillet [ShapeOf (shape c)] [] argss))
    else (Raise (AttributeError "Shape"), st).
Proof.
  unfold OccFillet.update_shape, call_Shape.
  destruct (has_Shape (shape c)); [|reflexivity].
  unfold bind at 1. unfold bind at 1. simpl.
  unfold bind at 1. unfold kernel_new at 1. unfold bind at 1. simpl.
  unfold bind at 1. rewrite for_fold_add_run. simpl.
  rewrite <- !app_assoc. reflexivity.
Qed.

(** C4: a Fillet without children raises the error of the missing child
    (the ValueError "Fillet must have a child shape to operate on.")
    before anything else happens: the kernel log and the node's shape are
    as they were.  With a child the rebuild never raises this error. *)
Theorem fillet_no_child_raises :
  forall (d : OccFillet.Declaration) (st : rebuild_state),
    fst (OccFillet.update_shape d [] st)
      = Raise (ValueError "Fillet must have a child shape to operate on.") /\
    kernel (snd (OccFillet.update_shape d [] st)) = kernel st /\
    self_shape (snd (OccFillet.update_shape d [] st)) = self_shape st /\
    (forall (c : OccShape) (rest : list OccShape) (msg : string),
        fst (OccFillet.update_shape d (c :: rest) st) <> Raise (ValueError msg)).
Proof.
  intros d st. repeat split.
  intros c rest msg. rewrite fillet_update_shape_child.
  destruct (has_Shape (shape c)); simpl; discriminate.
Qed.

Lemma chamfer_update_shape_child (d : OccChamfer.Declaration) (c : OccShape)
      (rest : list OccShape) (st : rebuild_state) :
  OccChamfer.update_shape d (c :: rest) st
  = let es := if nonempty (OccChamfer.edges d) then OccChamfer.edges d
              else Topology.edges (topology c) in
    let fs := if nonempty (OccChamfer.faces d) then OccChamfer.faces d
              else Topology.faces (topology c) in
    let argss := map (fun ef => OccChamfer.add_args d (fst ef) (snd ef)) (zip es fs) in
    (Return tt,
     mkState (New BRepFilletAPI_MakeChamfer [as_shape (shape c)] argss)
             (((kernel st ++ (if has_Shape (shape c)
                              then [KMethod (shape c) "Shape" []] else []))
                 ++ [KNew BRepFilletAPI_MakeChamfer [as_shape (shape c)]])
                ++ add_calls "Add" BRepFilletAPI_MakeChamfer [as_shape (shape c)] [] argss)).
Proof.
  unfold OccChamfer.update_shape, OccChamfer.get_shape, getattr_shape.
  unfold bind at 1. simpl.
  unfold bind at 1. rewrite Shape_if_builder_eq.
  unfold bind at 1. unfold kernel_new at 1. unfold bind at 1. simpl.
  unfold bind at 1. unfold OccChamfer.get_edges, getattr_topology.
  destruct (nonempty (OccChamfer.edges d)), (nonempty (OccChamfer.faces d));
    simpl; unfold bind at 1; rewrite for_fold_add_run; reflexivity.
Qed.

(** C5: the [Add] calls a Chamfer rebuild submits to the kernel are, in
    order, one per pair of the positional zip of the resolved edges
    (declared, or all of the topology when none is declared) with the
    resolved faces (likewise); the zip pairs the first [n] edges with the
    first [n] faces, [n] the shorter length.  With three declared edges
    and two declared faces exactly two calls are made, for the first two
    edges; the third edge is in none. *)
Theorem chamfer_pairs_zip :
  forall (d : OccChamfer.Declaration) (c : OccShape) (rest : list OccShape)
         (st : rebuild_state),
    let es := if nonempty (OccChamfer.edges d) then OccChamfer.edges d
              else Topology.edges (topology c) in
    let fs := if nonempty (OccChamfer.faces d) then OccChamfer.faces d
              else Topology.faces (topology c) in
    let n := Nat.min (length es) (length fs) in
    let st' := snd (OccChamfer.update_shape d (c :: rest) st) in
    fst (OccChamfer.update_shape d (c :: rest) st) = Return tt /\
    fst (OccChamfer.get_edges d (Some c) st) = Return (zip es fs) /\
    submitted "Add" (kernel st')
      = submitted "Add" (kernel st)
          ++ map (fun ef => OccChamfer.add_args d (fst ef) (snd ef))
                 (combine (firstn n es) (firstn n fs)) /\
    length (zip es fs) = n /\
    (forall e1 e2 e3 f1 f2 : obj,
        OccChamfer.edges d = [e1; e2; e3] ->
        OccChamfer.faces d = [f1; f2] ->
        submitted "Add" (kernel st')
          = submitted "Add" (kernel st)
              ++ [OccChamfer.add_args d e1 f1; OccChamfer.add_args d e2 f2]).
Proof.
  intros d c rest st es fs n st'.
  assert (Hsub : submitted "Add" (kernel st')
                 = submitted "Add" (kernel st)
                     ++ map (fun ef => OccChamfer.add_args d (fst ef) (snd ef))
                            (zip es fs)).
  { subst st'. rewrite chamfer_update_shape_child. simpl.
    rewrite !submitted_app, submitted_add_calls.
    destruct (has_Shape (shape c)); simpl; rewrite !app_nil_r; reflexivity. }
  split; [rewrite chamfer_update_shape_child; reflexivity|].
  split.
  { unfold OccChamfer.get_edges, getattr_topology. subst es fs.
    destruct (nonempty (OccChamfer.edges d)), (nonempty (OccChamfer.faces d));
      reflexivity. }
  split; [rewrite Hsub; subst n; rewrite <- zip_firstn; reflexivity|].
  split; [apply zip_length|].
  intros e1 e2 e3 f1 f2 He Hf. rewrite Hsub. subst es fs.
  rewrite He, Hf. reflexivity.
Qed.

(** C10: a Chamfer without children fails on reading the attribute
    [shape] of the [None] that [get_shape] returned, before the chamfer
    builder is made: the kernel log and the node's shape are as they
    were.  The error is an AttributeError, where Fillet raises its
    ValueError. *)
Theorem chamfer_no_child_attribute_error :
  forall (d : OccChamfer.Declaration) (fd : OccFillet.Declaration)
         (st : rebuild_state),
    OccChamfer.get_shape [] = None /\
    fst (OccChamfer.update_shape d [] st)
      = Raise (AttributeError "'NoneType' object has no attribute 'shape'") /\
    kernel (snd (OccChamfer.update_shape d [] st)) = kernel st /\
    self_shape (snd (OccChamfer.update_shape d [] st)) = self_shape st /\
    (forall msg : string,
        fst (OccChamfer.update_shape d [] st) <> Raise (ValueError msg)) /\
    (exists msg : string,
        fst (OccFillet.update_shape fd [] st) = Raise (ValueError msg)).
Proof.
  intros d fd st. repeat split.
  - intros msg. discriminate.
  - eexists. reflexivity.
Qed.

(** C6, what the code does: with no declared closing face and a target
    whose topology has no face, [get_faces] returns [None] and the [for]
    loop over it raises a TypeError, after the face list has been made;
    the emptiness test that would return quietly is not reached.  The
    node's shape is as it was. *)
Theorem thick_solid_no_face_raises :
  forall (d : OccThickSolid.Declaration) (c : OccShape) (rest : list OccShape)
         (st : rebuild_state),
    OccThickSolid.closing_faces d = [] ->
    Topology.faces (topology c) = [] ->
    OccThickSolid.update_shape d (c :: rest) st
    = (Raise (TypeError "'NoneType' object is not iterable"),
       mkState (self_shape st) (kernel st ++ [KNew TopTools_ListOfShape []])).
Proof.
  intros d c rest st Hd Hc.
  unfold OccThickSolid.update_shape, OccThickSolid.get_faces, OccOffset.get_shape,
    getattr_topology.
  rewrite Hd. simpl. unfold bind at 1. simpl.
  unfold bind at 1. unfold bind at 1. simpl. rewrite Hc. reflexivity.
Qed.

Lemma chamfer_pairs_zip_witness :
  submitted "Add" (kernel (snd (OccChamfer.update_shape chamfer_3_2 [box 3] idle)))
  = [[PyFloat 1%float; Topo 11; Topo 21]; [PyFloat 1%float; Topo 12; Topo 22]].
Proof.
  exact (proj2 (proj2 (proj2 (proj2
           (chamfer_pairs_zip chamfer_3_2 (box 3) [] idle))))
         (Topo 11) (Topo 12) (Topo 13) (Topo 21) (Topo 22) eq_refl eq_refl).
Defined.

Lemma thick_solid_no_face_raises_witness :
  OccThickSolid.update_shape thick_solid_undeclared [box 3] idle
  = (Raise (TypeError "'NoneType' object is not iterable"),
     mkState PyNone [KNew TopTools_ListOfShape []]).
Proof.
  exact (thick_solid_no_face_raises thick_solid_undeclared (box 3) [] idle
           eq_refl eq_refl).
Defined.

(** ** The queued update *)

Section Debounce.
Import OccOperation.
Variable self : oid.

Lemma at_node_pending (w : world) (cnt : Z) (d : members) :
  at_node w self cnt d -> pending w self = cnt.
Proof. intros (p & Hp & Hc & _). unfold pending. rewrite Hp. exact Hc. Qed.

Lemma queue_update_at (w : world) (cnt : Z) (d : members) (c : change) :
  at_node w self cnt d ->
  at_node (_queue_update self c w) self (cnt + 1) d /\
  event_loop (_queue_update self c w) = event_loop w ++ [(self, c)] /\
  rebuilds (_queue_update self c w) = rebuilds w.
Proof.
  intros (p & Hp & Hc & Hd). repeat split.
  exists (set_update_count (_update_count p + 1) p). simpl.
  rewrite lookup_alter_eq, Hp. simpl. rewrite Hc. auto.
Qed.

Lemma deliver_at (w : world) (cnt : Z) (d : members) (n : notification) :
  at_node w self cnt d ->
  at_node (deliver self n w) self (cnt + 1) (written [n] d) /\
  event_loop (deliver self n w) = event_loop w ++ [(self, change_of n)] /\
  rebuilds (deliver self n w) = rebuilds w.
Proof.
  intros H. destruct n as [field value | c];
    unfold deliver, written; cbn [change_of fold_left].
  - unfold set_parameter.
    set (w' := with_heap _ w).
    assert (H' : at_node w' self cnt (<[field:=value]> d)).
    { destruct H as (p & Hp & Hc & Hd).
      eexists. subst w'. simpl. rewrite lookup_alter_eq, Hp. simpl.
      split; [reflexivity|]. simpl. rewrite Hd. auto. }
    destruct (queue_update_at w' _ _ EmptyChange H') as (A & B & C).
    split; [exact A|]. split; [rewrite B | rewrite C]; reflexivity.
  - apply queue_update_at. exact H.
Qed.

Lemma deliver_all_at (ns : list notification) (w : world) (cnt : Z) (d : members) :
  at_node w self cnt d ->
  at_node (deliver_all self ns w) self (cnt + Z.of_nat (length ns)) (written ns d) /\
  event_loop (deliver_all self ns w)
    = event_loop w ++ map (fun n => (self, change_of n)) ns /\
  rebuilds (deliver_all self ns w) = rebuilds w.
Proof.
  revert w cnt d. induction ns as [|n ns IH]; intros w cnt d H.
  - simpl. rewrite Z.add_0_r, app_nil_r. auto.
  - destruct (deliver_at w cnt d n H) as (H1 & E1 & R1).
    destruct (IH _ _ _ H1) as (H2 & E2 & R2).
    unfold deliver_all in *. cbn [fold_left length map].
    rewrite E2, E1, R2, R1, <- app_assoc.
    replace (cnt + Z.of_nat (S (length ns))) with (cnt + 1 + Z.of_nat (length ns)) by lia.
    auto.
Qed.

(** A queued call that finds the counter above one only decrements it. *)
Lemma fire_pending (w : world) (cnt : Z) (d : members) (c : change)
      (q : list (oid * change)) :
  at_node w self cnt d -> event_loop w = (self, c) :: q -> cnt <> 1 ->
  at_node (fire w) self (cnt - 1) d /\
  event_loop (fire w) = q /\
  rebuilds (fire w) = rebuilds w.
Proof.
  intros (p & Hp & Hc & Hd) Hq Hne.
  unfold fire, _dequeue_update. rewrite Hq. simpl.
  rewrite lookup_alter_eq, Hp. simpl. rewrite Hc.
  destruct (Z.eqb_spec (cnt - 1) 0) as [E|E]; [lia|]. simpl.
  repeat split. eexists. simpl. rewrite lookup_alter_eq, Hp. simpl.
  split; [reflexivity|]. simpl. rewrite Hc. auto.
Qed.

(** The call that brings the counter to zero runs the rebuild. *)
Lemma fire_settled (w : world) (d : members) (c : change)
      (q : list (oid * change)) :
  at_node w self 1 d -> event_loop w = (self, c) :: q ->
  at_node (fire w) self 0 d /\
  event_loop (fire w) = q /\
  rebuilds (fire w) = rebuilds w ++ [(self, c, d)].
Proof.
  intros (p & Hp & Hc & Hd) Hq.
  unfold fire, _dequeue_update. rewrite Hq. simpl.
  rewrite lookup_alter_eq, Hp. simpl. rewrite Hc, Hd. simpl.
  repeat split. eexists. simpl. rewrite lookup_alter_eq, Hp. simpl.
  split; [reflexivity|]. simpl. rewrite Hc. auto.
Qed.

(** Firing the first [i] of [length cs + 1] queued calls. *)
Lemma fire_n_at (cs : list change) (c0 : change) (w : world) (d : members) (i : nat) :
  at_node w self (Z.of_nat (length cs) + 1) d ->
  event_loop w = map (fun c => (self, c)) (cs ++ [c0]) ->
  (i <= length cs)%nat ->
  at_node (fire_n i w) self (Z.of_nat (length cs) + 1 - Z.of_nat i) d /\
  event_loop (fire_n i w) = map (fun c => (self, c)) (skipn i (cs ++ [c0])) /\
  rebuilds (fire_n i w) = rebuilds w.
Proof.
  revert cs w. induction i as [|i IH]; intros cs w H Hq Hi.
  - simpl. rewrite Z.sub_0_r. auto.
  - destruct cs as [|c cs]; [simpl in Hi; lia|].
    cbn [length] in *. simpl in Hq.
    destruct (fire_pending w _ d c _ H Hq) as (H1 & E1 & R1); [lia|].
    replace (Z.of_nat (S (length cs)) + 1 - 1) with (Z.of_nat (length cs) + 1) in H1 by lia.
    destruct (IH cs (fire w) H1 E1) as (H2 & E2 & R2); [lia|].
    cbn [fire_n]. rewrite E2, R2, R1.
    replace (Z.of_nat (S (length cs)) + 1 - Z.of_nat (S i))
      with (Z.of_nat (length cs) + 1 - Z.of_nat i) by lia.
    auto.
Qed.

Lemma fire_n_S (i : nat) (w : world) : fire_n (S i) w = fire (fire_n i w).
Proof. revert w. induction i as [|i IH]; intros w; [reflexivity|]. simpl in *. apply IH. Qed.

Lemma fire_n_all (cs : list change) (c0 : change) (w : world) (d : members) :
  at_node w self (Z.of_nat (length cs) + 1) d ->
  event_loop w = map (fun c => (self, c)) (cs ++ [c0]) ->
  at_node (fire_n (S (length cs)) w) self 0 d /\
  event_loop (fire_n (S (length cs)) w) = [] /\
  rebuilds (fire_n (S (length cs)) w) = rebuilds w ++ [(self, c0, d)].
Proof.
  intros H Hq.
  destruct (fire_n_at cs c0 w d (length cs) H Hq) as (H1 & E1 & R1); [lia|].
  rewrite skipn_app, skipn_all, Nat.sub_diag in E1. simpl in E1.
  replace (Z.of_nat (length cs) + 1 - Z.of_nat (length cs)) with 1 in H1 by lia.
  rewrite fire_n_S.
  destruct (fire_settled _ d c0 [] H1 E1) as (H2 & E2 & R2).
  rewrite R2, R1. auto.
Qed.

End Debounce.

Example ten_writes_pending :
  pending (OccOperation.deliver_all 1%positive ten_writes one_node) 1%positive = 10.
Proof. vm_compute. reflexivity. Qed.

Example nine_fired_no_rebuild :
  rebuilds (OccOperation.fire_n 9
              (OccOperation.deliver_all 1%positive ten_writes one_node)) = [].
Proof. vm_compute. reflexivity. Qed.

(** A destroyed proxy still counts its notifications down, and is not
    rebuilt. *)
Example destroyed_not_rebuilt :
  let w := mkWorld {[1%positive := mkProxy None 0 None None None []]} [] [] in
  let w' := OccOperation.fire
              (OccOperation._queue_update 1%positive EmptyChange w) in
  rebuilds w' = [] /\ pending w' 1%positive = 0.
Proof. vm_compute. split; reflexivity. Qed.

(** C3: a live node (its declaration present) with nothing pending
    receives [n >= 1] notifications, parameter writes or observed changes,
    each raising the pending counter by one and queueing one call; when
    the queued calls fire, the first [n - 1] only lower the counter and
    the last one runs [update_shape], once, on the declaration as the
    last write left it.  The counter counts up to [n] and down to zero
    and the queue is empty at the end. *)
Theorem debounce_one_rebuild :
  forall (w : world) (self : oid) (d : members)
         (ns : list OccOperation.notification) (n0 : OccOperation.notification),
    at_node w self 0 d ->
    event_loop w = [] ->
    let all := ns ++ [n0] in
    let n := length all in
    let w1 := OccOperation.deliver_all self all w in
    (forall j : nat, (j <= n)%nat ->
        pending (OccOperation.deliver_all self (firstn j all) w) self = Z.of_nat j) /\
    event_loop w1 = map (fun x => (self, OccOperation.change_of x)) all /\
    (forall i : nat, (i <= n)%nat ->
        pending (OccOperation.fire_n i w1) self = Z.of_nat (n - i)) /\
    (forall i : nat, (i < n)%nat ->
        rebuilds (OccOperation.fire_n i w1) = rebuilds w) /\
    rebuilds (OccOperation.fire_n n w1)
      = rebuilds w ++ [(self, OccOperation.change_of n0, OccOperation.written all d)] /\
    event_loop (OccOperation.fire_n n w1) = [] /\
    pending (OccOperation.fire_n n w1) self = 0.
Proof.
  intros w self d ns n0 H Hq all n w1.
  assert (Hn : n = S (length ns)).
  { subst n all. rewrite length_app. simpl. lia. }
  destruct (deliver_all_at self all w 0 d H) as (H1 & E1 & R1).
  fold w1 in H1, E1, R1. fold n in H1. rewrite Hq in E1. simpl in E1.
  set (cs := map OccOperation.change_of ns).
  set (c0 := OccOperation.change_of n0).
  assert (Hlen : length cs = length ns) by (subst cs; apply length_map).
  assert (E1' : event_loop w1 = map (fun c => (self, c)) (cs ++ [c0])).
  { rewrite E1. subst all cs c0. rewrite !map_app, map_map. reflexivity. }
  assert (H1' : at_node w1 self (Z.of_nat (length cs) + 1) (OccOperation.written all d)).
  { replace (Z.of_nat (length cs) + 1) with (0 + Z.of_nat n) by lia. exact H1. }
  destruct (fire_n_all self cs c0 w1 _ H1' E1') as (H2 & E2 & R2).
  rewrite Hlen, <- Hn in H2, E2, R2.
  assert (Hpre : forall i : nat, (i <= length ns)%nat ->
            pending (OccOperation.fire_n i w1) self = Z.of_nat (n - i) /\
            rebuilds (OccOperation.fire_n i w1) = rebuilds w).
  { intros i Hi.
    destruct (fire_n_at self cs c0 w1 _ i H1' E1') as (H3 & _ & R3); [lia|].
    rewrite (at_node_pending self _ _ _ H3), R3, R1. split; [lia|reflexivity]. }
  split.
  { intros j Hj.
    destruct (deliver_all_at self (firstn j all) w 0 d H) as (H4 & _ & _).
    rewrite (at_node_pending self _ _ _ H4), length_firstn. fold n. lia. }
  split; [exact E1|].
  split.
  { intros i Hi. destruct (Nat.eq_dec i n) as [->|Hne].
    - rewrite (at_node_pending self _ _ _ H2). lia.
    - apply Hpre. lia. }
  split; [intros i Hi; apply Hpre; lia|].
  split; [rewrite R2, R1; reflexivity|].
  split; [exact E2|].
  apply (at_node_pending self _ _ _ H2).
Qed.

Lemma one_node_at : at_node one_node 1%positive 0 {["radius" := PyFloat 1%float]}.
Proof. exists fillet_node. repeat split. Qed.

Lemma debounce_one_rebuild_witness :
  rebuilds (OccOperation.fire_n 10
              (OccOperation.deliver_all 1%positive ten_writes one_node))
  = [(1%positive, EmptyChange,
      OccOperation.written ten_writes {["radius" := PyFloat 1%float]})].
Proof.
  exact (proj1 (proj2 (proj2 (proj2 (proj2
    (debounce_one_rebuild one_node 1%positive {["radius" := PyFloat 1%float]}
       (removelast ten_writes) (OccOperation.Write "radius" (PyFloat 11%float))
       one_node_at eq_refl)))))).
Defined.

(** ** Observers and rebinding *)

Section Observers.
Import OccOperation.

Lemma pool_frame (f : proxy -> proxy) (o target : oid) (w : world) :
  (forall p, shape_observers (f p) = shape_observers p) ->
  pool (with_heap (alter f o) w) target = pool w target.
Proof.
  intros Hf. unfold pool, with_heap. simpl. rewrite lookup_alter.
  case_decide; [subst|reflexivity].
  destruct (heap w !! target); simpl; auto.
Qed.

Lemma pending_frame (f : proxy -> proxy) (o o' : oid) (w : world) :
  (forall p, _update_count (f p) = _update_count p) ->
  pending (with_heap (alter f o) w) o' = pending w o'.
Proof.
  intros Hf. unfold pending, with_heap. simpl. rewrite lookup_alter.
  case_decide; [subst|reflexivity].
  destruct (heap w !! o'); simpl; auto.
Qed.

Lemma on_heap_frame (f : proxy -> proxy) (o o' : oid) (w : world) :
  is_Some (heap (with_heap (alter f o) w) !! o') <-> is_Some (heap w !! o').
Proof. apply lookup_alter_is_Some. Qed.

Lemma pool_queue_update (o target : oid) (c : change) (w : world) :
  pool (_queue_update o c w) target = pool w target.
Proof.
  unfold _queue_update, timed_call.
  exact (pool_frame (fun p => set_update_count (_update_count p + 1) p)
                    o target w (fun p => eq_refl)).
Qed.

Lemma observes_observe (t s s' target : oid) (w : world) :
  observes (observe t s w) s' target <->
  observes w s' target \/ (target = t /\ s' = s /\ is_Some (heap w !! target)).
Proof.
  unfold observes, pool, observe, with_heap. simpl. rewrite lookup_alter.
  case_decide as E; [subst t|].
  - destruct (heap w !! target) as [p|]; simpl.
    + case_bool_decide as Hin.
      * split; [auto|]. intros [H|(_ & -> & _)]; assumption.
      * rewrite elem_of_app, list_elem_of_singleton.
        split; [intros [H| ->]; eauto|]. intros [H|(_ & -> & _)]; auto.
    + split; [auto|]. intros [H|(_ & _ & [x Hx])]; [exact H|discriminate].
  - split; [auto|]. intros [H|(-> & _)]; [exact H|congruence].
Qed.

Lemma observes_unobserve (t s s' target : oid) (w : world) :
  observes (unobserve t s w) s' target <->
  observes w s' target /\ ~ (target = t /\ s' = s).
Proof.
  unfold observes, pool, unobserve, with_heap. simpl. rewrite lookup_alter.
  case_decide as E; [subst t|].
  - destruct (heap w !! target) as [p|]; simpl.
    + rewrite list_elem_of_filter. split.
      * intros [Hne Hin]. split; [exact Hin|]. intros [_ ->]. congruence.
      * intros [Hin Hne]. split; [|exact Hin]. intros ->. apply Hne. auto.
    + split; [intros H; apply elem_of_nil in H; contradiction|].
      intros [H _]. exact H.
  - split; [intros H; split; [exact H|intros [-> _]; congruence]|].
    intros [H _]. exact H.
Qed.

(** The counter of [self] under a run of callbacks. *)
Lemma pending_queue_update_other (o self : oid) (c : change) (w : world) :
  o <> self -> pending (_queue_update o c w) self = pending w self.
Proof.
  intros Hne. unfold _queue_update, timed_call, pending, with_heap. simpl.
  rewrite lookup_alter_ne by exact Hne. reflexivity.
Qed.

Lemma pending_queue_update_self (self : oid) (c : change) (w : world) :
  is_Some (heap w !! self) ->
  pending (_queue_update self c w) self = pending w self + 1.
Proof.
  intros [p Hp]. unfold _queue_update, timed_call, pending, with_heap. simpl.
  rewrite lookup_alter_eq, Hp. reflexivity.
Qed.

Lemma on_heap_queue_update (o o' : oid) (c : change) (w : world) :
  is_Some (heap (_queue_update o c w) !! o') <-> is_Some (heap w !! o').
Proof. unfold _queue_update, timed_call. simpl. apply lookup_alter_is_Some. Qed.

Lemma queued_queue_update_other (o self : oid) (c : change) (w : world) :
  o <> self -> queued (_queue_update o c w) self = queued w self.
Proof.
  intros Hne. unfold queued, _queue_update, timed_call. simpl.
  rewrite filter_app. simpl. rewrite filter_cons_False by (simpl; exact Hne).
  rewrite filter_nil. apply app_nil_r.
Qed.

Lemma notify_absent (self : oid) (c : change) (l : list oid) (w : world) :
  self ∉ l ->
  pending (fold_left (fun w o => _queue_update o c w) l w) self = pending w self /\
  queued (fold_left (fun w o => _queue_update o c w) l w) self = queued w self.
Proof.
  revert w. induction l as [|o l IH]; intros w Hin; [auto|].
  apply not_elem_of_cons in Hin. destruct Hin as [Hne Hin].
  simpl. destruct (IH (_queue_update o c w) Hin) as [-> ->].
  split; [apply pending_queue_update_other | apply queued_queue_update_other]; auto.
Qed.

Lemma notify_monotone (self : oid) (c : change) (l : list oid) (w : world) :
  pending w self <= pending (fold_left (fun w o => _queue_update o c w) l w) self /\
  (forall e, e ∈ event_loop w ->
             e ∈ event_loop (fold_left (fun w o => _queue_update o c w) l w)).
Proof.
  revert w. induction l as [|o l IH]; intros w; [simpl; split; [lia|auto]|].
  simpl. destruct (IH (_queue_update o c w)) as [Hle Hev]. split.
  - etransitivity; [|exact Hle].
    destruct (decide (o = self)) as [->|Hne].
    + unfold pending, _queue_update, timed_call, with_heap. simpl.
      rewrite lookup_alter_eq. destruct (heap w !! self); simpl; lia.
    + rewrite pending_queue_update_other by exact Hne. lia.
  - intros e He. apply Hev. unfold _queue_update, timed_call. simpl.
    apply elem_of_app. auto.
Qed.

Lemma notify_present (self : oid) (c : change) (l : list oid) (w : world) :
  self ∈ l -> is_Some (heap w !! self) ->
  pending w self < pending (fold_left (fun w o => _queue_update o c w) l w) self /\
  (self, c) ∈ event_loop (fold_left (fun w o => _queue_update o c w) l w).
Proof.
  revert w. induction l as [|o l IH]; intros w Hin Hs.
  - apply elem_of_nil in Hin. contradiction.
  - simpl. destruct (decide (o = self)) as [->|Hne].
    + destruct (notify_monotone self c l (_queue_update self c w)) as [Hle Hev].
      rewrite pending_queue_update_self in Hle by exact Hs. split; [lia|].
      apply Hev. unfold _queue_update, timed_call. simpl.
      apply elem_of_app. right. apply list_elem_of_singleton. reflexivity.
    + apply elem_of_cons in Hin. destruct Hin as [E|Hin]; [congruence|].
      destruct (IH (_queue_update o c w) Hin) as [Hlt Hev].
      { apply on_heap_queue_update. exact Hs. }
      rewrite pending_queue_update_other in Hlt by exact Hne. auto.
Qed.

Lemma shape_changed_unobserved (self target : oid) (w : world) :
  ~ observes w self target ->
  pending (shape_changed target w) self = pending w self /\
  queued (shape_changed target w) self = queued w self.
Proof.
  unfold observes, pool, shape_changed.
  destruct (heap w !! target) as [p|]; [|auto].
  apply notify_absent.
Qed.

Lemma shape_changed_observed (self target : oid) (w : world) :
  observes w self target -> is_Some (heap w !! self) ->
  pending w self < pending (shape_changed target w) self /\
  (self, MemberChange target "shape") ∈ event_loop (shape_changed target w).
Proof.
  unfold observes, pool, shape_changed.
  destruct (heap w !! target) as [p|].
  - apply notify_present.
  - intros H. apply elem_of_nil in H. contradiction.
Qed.

End Observers.

Section Rebind.
Import OccOperation.

(** A reference kept on the proxy: how it is read and stored. *)
Variables (get : proxy -> option oid) (set : option oid -> proxy -> proxy).
Hypothesis get_set : forall r p, get (set r p) = r.
Hypothesis get_count : forall n p, get (set_update_count n p) = get p.
Hypothesis set_observers : forall r p, shape_observers (set r p) = shape_observers p.

(** The handler, which has the common shape of [set_spline] and
    [set_profile], and the reader of the reference. *)
Variable field : world -> oid -> option oid.
Variable rebind : oid -> oid -> world -> world.
Hypothesis field_eq : forall w self, field w self = (p ← heap w !! self; get p).
Hypothesis rebind_eq : forall self target w,
  rebind self target w
  = let w := match field w self with
             | Some old => unobserve old self w
             | None => w
             end in
    let child := target in
    let w := observe child self w in
    let w := with_heap (alter (set (Some child)) self) w in
    _queue_update self EmptyChange w.

Lemma rebind_observes (w : world) (self X Y Z : oid) :
  is_Some (heap w !! Y) ->
  observes (_queue_update self EmptyChange
              (with_heap (alter (set (Some Y)) self)
                 (observe Y self (unobserve X self w)))) self Z
  <-> Z = Y \/ (Z <> X /\ observes w self Z).
Proof.
  intros HY. unfold observes at 1. rewrite pool_queue_update.
  rewrite pool_frame by (intros p; apply set_observers).
  fold (observes (observe Y self (unobserve X self w)) self Z).
  rewrite observes_observe, observes_unobserve.
  split.
  - intros [[H Hne]|(-> & _)]; [|auto].
    right. split; [|exact H]. intros ->. apply Hne. auto.
  - intros [->|[Hne H]].
    + right. repeat split. unfold unobserve. apply on_heap_frame. exact HY.
    + left. split; [exact H|]. intros [-> _]. congruence.
Qed.

Lemma rebind_rebinds (w : world) (self X Y : oid) :
  is_Some (heap w !! self) ->
  is_Some (heap w !! Y) ->
  field w self = Some X ->
  rebinds rebind field set w self X Y.
Proof.
  intros Hs HY HX.
  assert (Hw : rebind self Y w
               = _queue_update self EmptyChange
                   (with_heap (alter (set (Some Y)) self)
                      (observe Y self (unobserve X self w)))).
  { rewrite rebind_eq. cbv zeta. rewrite HX. reflexivity. }
  unfold rebinds. cbv zeta. rewrite Hw.
  set (w' := _queue_update self EmptyChange _).
  assert (Hobs : forall Z, observes w' self Z <-> Z = Y \/ (Z <> X /\ observes w self Z)).
  { intros Z. apply rebind_observes. exact HY. }
  assert (Hs' : is_Some (heap w' !! self)).
  { subst w'. apply on_heap_queue_update. apply on_heap_frame.
    unfold observe. apply on_heap_frame. unfold unobserve. apply on_heap_frame.
    exact Hs. }
  assert (HobsY : observes w' self Y) by (apply Hobs; auto).
  assert (HobsX : X <> Y -> ~ observes w' self X).
  { intros Hne H. apply Hobs in H. destruct H as [E|[E _]]; congruence. }
  split; [reflexivity|].
  split.
  { subst w'. rewrite field_eq. unfold _queue_update, timed_call, with_heap. simpl.
    rewrite !lookup_alter_eq.
    assert (Hq : is_Some (alter (fun p => set_shape_observers
                    (if bool_decide (self ∈ shape_observers p) then shape_observers p
                     else shape_observers p ++ [self]) p) Y
                  (alter (fun p => set_shape_observers
                            (filter (fun o => o ≠ self) (shape_observers p)) p) X
                         (heap w)) !! self)).
    { apply lookup_alter_is_Some, lookup_alter_is_Some. exact Hs. }
    destruct Hq as [q ->]. simpl. rewrite get_count. apply get_set. }
  split; [exact HobsY|].
  split; [exact HobsX|].
  split; [exact Hobs|].
  split.
  { intros Hall Z. rewrite Hobs, Hall. split; [intros [H|[H1 H2]]; congruence | auto]. }
  split; [apply shape_changed_observed; assumption|].
  split; [apply shape_changed_observed; assumption|].
  intros Hne. apply shape_changed_unobserved. apply HobsX. exact Hne.
Qed.


End Rebind.

(** The references and the counter of other proxies are untouched. *)
Section Frames.
Import OccOperation.

Lemma field_frame (get : proxy -> option oid) (f : proxy -> proxy) (o self : oid)
      (w : world) :
  (forall p, get (f p) = get p) ->
  (p ← heap (with_heap (alter f o) w) !! self; get p) = (p ← heap w !! self; get p).
Proof.
  intros Hf. unfold with_heap. simpl. rewrite lookup_alter.
  case_decide; [subst|reflexivity].
  destruct (heap w !! self); simpl; auto.
Qed.

Lemma field_queue_update (get : proxy -> option oid) (o self : oid) (c : change)
      (w : world) :
  (forall n p, get (set_update_count n p) = get p) ->
  (p ← heap (_queue_update o c w) !! self; get p) = (p ← heap w !! self; get p).
Proof.
  intros Hf. unfold _queue_update, timed_call.
  apply (field_frame get (fun p => set_update_count (_update_count p + 1) p) o self w).
  intros p. apply Hf.
Qed.

Lemma at_node_frame (f : proxy -> proxy) (o self : oid) (w : world) (cnt : Z)
      (d : members) :
  (forall p, _update_count (f p) = _update_count p) ->
  (forall p, declaration (f p) = declaration p) ->
  at_node w self cnt d -> at_node (with_heap (alter f o) w) self cnt d.
Proof.
  intros Hc Hd (p & Hp & Hcnt & Hdecl). unfold at_node, with_heap. simpl.
  destruct (decide (o = self)) as [->|Hne].
  - exists (f p). rewrite lookup_alter_eq, Hp, Hc, Hd. auto.
  - exists p. rewrite lookup_alter_ne by exact Hne. auto.
Qed.

Lemma set_shape_observes (w : world) (self X Y Z : oid) :
  is_Some (heap w !! Y) ->
  observes (observe Y self
              (with_heap (alter (set_old_shape (Some Y)) self)
                 (unobserve X self w))) self Z
  <-> Z = Y \/ (Z <> X /\ observes w self Z).
Proof.
  intros HY. rewrite observes_observe. unfold observes at 1.
  rewrite pool_frame by reflexivity.
  fold (observes (unobserve X self w) self Z). rewrite observes_unobserve.
  split.
  - intros [[H Hne]|(-> & _)]; [|auto].
    right. split; [|exact H]. intros ->. apply Hne. auto.
  - intros [->|[Hne H]].
    + right. repeat split. apply on_heap_frame. unfold unobserve.
      apply on_heap_frame. exact HY.
    + left. split; [exact H|]. intros [-> _]. congruence.
Qed.

End Frames.

Section Tracking.
Import OccOperation OccPipe.











End Tracking.




(** C9, what the code does: rebinding the explicit shape of a Transform
    moves the observer and stores the reference, and that is all: nothing
    is queued, no counter moves and no rebuild runs, so no rebuild is owed
    for the new target.  The handlers of a Pipe's spline and profile, and
    a parameter write, each queue one update and run no rebuild inline. *)
Theorem transform_set_shape_queues_nothing :
  forall (w : world) (self target : oid),
    event_loop (OccTransform.set_shape self target w) = event_loop w /\
    (forall o : oid, pending (OccTransform.set_shape self target w) o = pending w o) /\
    rebuilds (OccTransform.set_shape self target w) = rebuilds w /\
    event_loop (OccPipe.set_spline self target w) = event_loop w ++ [(self, EmptyChange)] /\
    event_loop (OccPipe.set_profile self target w) = event_loop w ++ [(self, EmptyChange)] /\
    rebuilds (OccPipe.set_spline self target w) = rebuilds w /\
    rebuilds (OccPipe.set_profile self target w) = rebuilds w /\
    (forall (field : string) (value : obj),
        event_loop (OccOperation.set_parameter self field value w)
          = event_loop w ++ [(self, EmptyChange)] /\
        rebuilds (OccOperation.set_parameter self field value w) = rebuilds w).
Proof.
  intros w self target.
  split; [unfold OccTransform.set_shape; destruct (OccTransform.old_shape w self); reflexivity|].
  split.
  { intros o. unfold OccTransform.set_shape, OccOperation.observe.
    rewrite pending_frame by reflexivity.
    rewrite pending_frame by reflexivity.
    destruct (OccTransform.old_shape w self); [|reflexivity].
    unfold OccOperation.unobserve. apply pending_frame. reflexivity. }
  split; [unfold OccTransform.set_shape; destruct (OccTransform.old_shape w self); reflexivity|].
  split; [unfold OccPipe.set_spline; destruct (OccPipe.old_spline w self); reflexivity|].
  split; [unfold OccPipe.set_profile; destruct (OccPipe.old_profile w self); reflexivity|].
  split; [unfold OccPipe.set_spline; destruct (OccPipe.old_spline w self); reflexivity|].
  split; [unfold OccPipe.set_profile; destruct (OccPipe.old_profile w self); reflexivity|].
  intros field value. split; reflexivity.
Qed.

(** ** The composite transform *)

Section TransformFold.
Import OccTransform.
Context {K : GpKernel}.

Lemma get_transform_loop_fold (ops : list Operation) (result : gp_Trsf) :
  get_transform_loop ops result
  = fold_left (fun M op => Multiply M (T op)) ops result.
Proof.
  revert result. induction ops as [|op ops IH]; intros result; [reflexivity|].
  cbn [get_transform_loop fold_left]. rewrite IH.
  destruct op; reflexivity.
Qed.

End TransformFold.

Section TransformOrder.
Import OccTransform RealKernel.
Local Open Scope R_scope.

Lemma norm_pos (dx dy dz : R) :
  (dx, dy, dz) <> (0, 0, 0) -> 0 < dx * dx + dy * dy + dz * dz.
Proof.
  intros H.
  destruct (Req_dec dx 0) as [Hx|Hx]; [|nra].
  destruct (Req_dec dy 0) as [Hy|Hy]; [|nra].
  destruct (Req_dec dz 0) as [Hz|Hz]; [|nra].
  exfalso. apply H. subst. reflexivity.
Qed.

Lemma direction_Some (dx dy dz : R) :
  (dx, dy, dz) <> (0, 0, 0) -> direction dx dy dz = Some (normalize dx dy dz).
Proof.
  intros H. unfold direction.
  destruct (Req_dec_T (dx * dx + dy * dy + dz * dz) 0) as [E|_]; [|reflexivity].
  pose proof (norm_pos dx dy dz H). lra.
Qed.

Lemma direction_null : direction 0 0 0 = None.
Proof.
  unfold direction.
  destruct (Req_dec_T (0 * 0 + 0 * 0 + 0 * 0) 0) as [_|E]; [reflexivity|].
  exfalso. apply E. ring.
Qed.

(** The unit vector of a direction that is not null, and the length it
    was divided by. *)
Lemma normalize_unit (dx dy dz : R) :
  (dx, dy, dz) <> (0, 0, 0) ->
  exists n ux uy uz : R,
    normalize dx dy dz = (ux, uy, uz) /\ 0 < n /\
    dx = n * ux /\ dy = n * uy /\ dz = n * uz /\
    ux * ux + uy * uy + uz * uz = 1.
Proof.
  intros H. pose proof (norm_pos dx dy dz H) as Hp.
  assert (Hn : 0 < sqrt (dx * dx + dy * dy + dz * dz)) by (apply sqrt_lt_R0; exact Hp).
  assert (Hq : sqrt (dx * dx + dy * dy + dz * dz) * sqrt (dx * dx + dy * dy + dz * dz)
               = dx * dx + dy * dy + dz * dz) by (apply sqrt_sqrt; lra).
  unfold normalize. cbv zeta.
  set (r := sqrt (dx * dx + dy * dy + dz * dz)) in *. clearbody r.
  exists r, (dx / r), (dy / r), (dz / r).
  split; [reflexivity|]. split; [exact Hn|].
  split; [field; lra|]. split; [field; lra|]. split; [field; lra|].
  replace (dx / r * (dx / r) + dy / r * (dy / r) + dz / r * (dz / r))
    with ((dx * dx + dy * dy + dz * dz) / (r * r)) by (field; lra).
  rewrite Hq. field. lra.
Qed.

(** The identity transform is a left unit of the product. *)
Lemma compose_identity_l (t : trsf) : compose (mkTrsf identity3 (0, 0, 0)) t = t.
Proof.
  destruct t as [[[[[a11 a12] a13] [[a21 a22] a23]] [[a31 a32] a33]] [[l1 l2] l3]].
  unfold compose, mat_mul, mat_vec, transpose, vadd, dot, identity3. cbn [lin loc].
  f_equal; repeat (match goal with |- (_, _) = (_, _) => apply f_equal2 end); ring.
Qed.

(** A translation by [v] and a linear map [m] about a point commute
    exactly when [m] leaves [v] where it is. *)
Lemma translate_about_swap (m : mat3) (p v : vec3) :
  compose (mkTrsf identity3 v) (about p m) = compose (about p m) (mkTrsf identity3 v)
  <-> mat_vec m v = v.
Proof.
  destruct m as [[[[a11 a12] a13] [[a21 a22] a23]] [[a31 a32] a33]].
  destruct p as [[p1 p2] p3]. destruct v as [[x y] z].
  unfold compose, about, mat_mul, mat_vec, transpose, vadd, vsub, dot, identity3.
  cbn [lin loc]. split.
  - intros H. apply (f_equal loc) in H. cbn [loc] in H.
    injection H as H1 H2 H3.
    repeat (match goal with |- (_, _) = (_, _) => apply f_equal2 end); lra.
  - intros H. injection H as H1 H2 H3.
    f_equal; repeat (match goal with |- (_, _) = (_, _) => apply f_equal2 end);
      try ring; lra.
Qed.

Lemma sum_squares_zero (a b c : R) :
  a * a + b * b + c * c = 0 -> a = 0 /\ b = 0 /\ c = 0.
Proof.
  intros H.
  assert (Ha : 0 <= a * a) by nra.
  assert (Hb : 0 <= b * b) by nra.
  assert (Hc : 0 <= c * c) by nra.
  assert (Ea : a * a = 0) by lra.
  assert (Eb : b * b = 0) by lra.
  assert (Ec : c * c = 0) by lra.
  apply Rmult_integral in Ea, Eb, Ec. tauto.
Qed.

(** A rotation that leaves a vector where it is is a full turn, or the
    vector lies along the axis. *)
Lemma rotation_moves (ux uy uz x y z a : R) :
  ux * ux + uy * uy + uz * uz = 1 ->
  mat_vec (rotation (ux, uy, uz) a) (x, y, z) = (x, y, z) ->
  cos a = 1 \/ cross (ux, uy, uz) (x, y, z) = (0, 0, 0).
Proof.
  intros Hu H. unfold mat_vec, rotation, dot, cross in *.
  injection H as H1 H2 H3.
  set (c := cos a) in *. set (s := sin a) in *.
  apply Rminus_diag_eq in H1. apply Rminus_diag_eq in H2. apply Rminus_diag_eq in H3.
  assert (K : (c - 1) * ((x * x + y * y + z * z)
                         - (ux * x + uy * y + uz * z) * (ux * x + uy * y + uz * z)) = 0).
  { match type of H1 with ?e1 = 0 =>
      match type of H2 with ?e2 = 0 =>
        match type of H3 with ?e3 = 0 =>
          replace ((c - 1) * ((x * x + y * y + z * z)
                     - (ux * x + uy * y + uz * z) * (ux * x + uy * y + uz * z)))
            with (x * e1 + y * e2 + z * e3) by ring
        end
      end
    end.
    rewrite H1, H2, H3. ring. }
  apply Rmult_integral in K. destruct K as [K|K]; [left; lra|right].
  assert (Q : (uy * z - uz * y) * (uy * z - uz * y)
              + (uz * x - ux * z) * (uz * x - ux * z)
              + (ux * y - uy * x) * (ux * y - uy * x) = 0).
  { replace ((uy * z - uz * y) * (uy * z - uz * y)
             + (uz * x - ux * z) * (uz * x - ux * z)
             + (ux * y - uy * x) * (ux * y - uy * x))
      with ((ux * ux + uy * uy + uz * uz) * (x * x + y * y + z * z)
            - (ux * x + uy * y + uz * z) * (ux * x + uy * y + uz * z)) by ring.
    rewrite Hu. lra. }
  apply sum_squares_zero in Q. destruct Q as (Q1 & Q2 & Q3).
  rewrite Q1, Q2, Q3. reflexivity.
Qed.

(** A rotation leaves the vectors along its axis where they are. *)
Lemma rotation_fixes (ux uy uz x y z a : R) :
  ux * ux + uy * uy + uz * uz = 1 ->
  cross (ux, uy, uz) (x, y, z) = (0, 0, 0) ->
  mat_vec (rotation (ux, uy, uz) a) (x, y, z) = (x, y, z).
Proof.
  intros Hu H. unfold mat_vec, rotation, dot, cross in *.
  injection H as C1 C2 C3.
  set (c := cos a). set (s := sin a).
  repeat (match goal with |- (_, _) = (_, _) => apply f_equal2 end).
  - replace ((c + ux * ux * (1 - c)) * x + (ux * uy * (1 - c) - uz * s) * y
             + (ux * uz * (1 - c) + uy * s) * z)
      with (x + (c - 1) * (x * (1 - (ux * ux + uy * uy + uz * uz))
                           - uy * (ux * y - uy * x) + uz * (uz * x - ux * z))
            + s * (uy * z - uz * y)) by ring.
    rewrite Hu, C1, C2, C3. ring.
  - replace ((uy * ux * (1 - c) + uz * s) * x + (c + uy * uy * (1 - c)) * y
             + (uy * uz * (1 - c) - ux * s) * z)
      with (y + (c - 1) * (y * (1 - (ux * ux + uy * uy + uz * uz))
                           + ux * (ux * y - uy * x) - uz * (uy * z - uz * y))
            + s * (uz * x - ux * z)) by ring.
    rewrite Hu, C1, C2, C3. ring.
  - replace ((uz * ux * (1 - c) - uy * s) * x + (uz * uy * (1 - c) + ux * s) * y
             + (c + uz * uz * (1 - c)) * z)
      with (z + (c - 1) * (z * (1 - (ux * ux + uy * uy + uz * uz))
                           - ux * (uz * x - ux * z) + uy * (uy * z - uz * y))
            + s * (ux * y - uy * x)) by ring.
    rewrite Hu, C1, C2, C3. ring.
Qed.

(** A full turn leaves every vector where it is. *)
Lemma rotation_full_turn (u v : vec3) (a : R) :
  cos a = 1 -> mat_vec (rotation u a) v = v.
Proof.
  intros Hc.
  assert (Hs : sin a = 0).
  { pose proof (sin2_cos2 a) as H. unfold Rsqr in H. rewrite Hc in H. nra. }
  destruct u as [[ux uy] uz]. destruct v as [[x y] z].
  unfold mat_vec, rotation, dot. rewrite Hc, Hs.
  repeat (match goal with |- (_, _) = (_, _) => apply f_equal2 end); ring.
Qed.

(** The two orders of a translation and a rotation about an axis give
    one composite exactly when the rotation is a full turn or the
    translation goes along the axis. *)
Lemma translate_rotate_swap (x y z px py pz dx dy dz angle : R) :
  (dx, dy, dz) <> (0, 0, 0) ->
  get_transform (K := kernel) [Translate x y z; Rotate (px, py, pz) (dx, dy, dz) angle]
  = get_transform (K := kernel) [Rotate (px, py, pz) (dx, dy, dz) angle; Translate x y z]
  <-> cos angle = 1 \/ cross (dx, dy, dz) (x, y, z) = (0, 0, 0).
Proof.
  intros Hd.
  destruct (normalize_unit dx dy dz Hd) as (n & ux & uy & uz & Hn & Hpos & Hx & Hy & Hz & Hu).
  assert (Hcross : cross (dx, dy, dz) (x, y, z) = (0, 0, 0)
                   <-> cross (ux, uy, uz) (x, y, z) = (0, 0, 0)).
  { unfold cross. rewrite Hx, Hy, Hz. split; intros H; injection H as C1 C2 C3.
    - assert (uy * z - uz * y = 0) by nra.
      assert (uz * x - ux * z = 0) by nra.
      assert (ux * y - uy * x = 0) by nra.
      repeat (match goal with |- (_, _) = (_, _) => apply f_equal2 end); assumption.
    - repeat (match goal with |- (_, _) = (_, _) => apply f_equal2 end); nra. }
  unfold get_transform. cbn [get_transform_loop unpack].
  cbn [new_Dir new_Ax1 new_Pnt new_Vec new_Trsf SetTranslation SetRotation Multiply kernel].
  rewrite (direction_Some dx dy dz Hd), Hn. cbn [axis on_axis multiply].
  rewrite !compose_identity_l. rewrite Hcross.
  split.
  - intros H. apply (inj Some) in H. apply translate_about_swap in H.
    apply (rotation_moves ux uy uz x y z angle Hu H).
  - intros H. f_equal. apply translate_about_swap.
    destruct H as [H|H]; [apply rotation_full_turn, H|apply rotation_fixes; assumption].
Qed.

Lemma quarter_turn_cos : cos (PI / 2) <> 1.
Proof. rewrite cos_PI2. lra. Qed.

Lemma quarter_turn_sin : sin (PI / 2) <> 0.
Proof. rewrite sin_PI2. lra. Qed.

Lemma vertical_axis : (0, 0, 1) <> (0, 0, 0).
Proof. intros H. injection H as H. lra. Qed.

Lemma across_vertical_axis : cross (0, 0, 1) (1, 0, 0) <> (0, 0, 0).
Proof. unfold cross. intros H. injection H as _ H _. lra. Qed.

(** C8, as the code has it: whatever the kernel, [get_transform] is the
  fold that starts from the identity [gp_Trsf()] and multiplies on the
  right by the elementary transform of each declared sub-operation, in
  declared order.  Swapping two sub-operations need not change the
  composite.  In exact arithmetic, for a rotation about an axis whose
  direction is not null, a translation followed by the rotation and the
  rotation followed by the translation give different composites exactly
  when the angle is not a full turn and the translation does not go
  along the axis: a half turn counts, a translation along the axis does
  not, whatever the angle.  With a null direction the kernel refuses the
  axis and neither order yields a transform. *)
Theorem get_transform_right_fold :
(forall (K : GpKernel) (ops : list OccTransform.Operation),
    OccTransform.get_transform ops
    = fold_left (fun M op => Multiply M (OccTransform.T op)) ops new_Trsf) /\
(forall x y z px py pz dx dy dz angle : R,
    (dx, dy, dz) <> (0, 0, 0) ->
    (OccTransform.get_transform
       [OccTransform.Translate x y z;
        OccTransform.Rotate (px, py, pz) (dx, dy, dz) angle]
     <> OccTransform.get_transform
          [OccTransform.Rotate (px, py, pz) (dx, dy, dz) angle;
           OccTransform.Translate x y z])
    <-> (cos angle <> 1 /\ cross (dx, dy, dz) (x, y, z) <> (0, 0, 0))) /\
(forall x y z px py pz angle : R,
    OccTransform.get_transform
      [OccTransform.Translate x y z;
       OccTransform.Rotate (px, py, pz) (0, 0, 0) angle] = None /\
    OccTransform.get_transform
      [OccTransform.Rotate (px, py, pz) (0, 0, 0) angle;
       OccTransform.Translate x y z] = None).
Proof.
split; [|split].
- intros K ops. apply get_transform_loop_fold.
- intros x y z px py pz dx dy dz angle Hd.
  rewrite (translate_rotate_swap x y z px py pz dx dy dz angle Hd). tauto.
- intros x y z px py pz angle.
  unfold get_transform. cbn [get_transform_loop unpack].
  cbn [new_Dir new_Ax1 new_Pnt new_Vec new_Trsf SetTranslation SetRotation Multiply kernel].
  rewrite direction_null. split; reflexivity.
Qed.

Lemma get_transform_right_fold_witness :
OccTransform.get_transform
  [OccTransform.Translate 1 0 0;
   OccTransform.Rotate (0, 0, 0) (0, 0, 1) (PI / 2)]
<> OccTransform.get_transform
     [OccTransform.Rotate (0, 0, 0) (0, 0, 1) (PI / 2);
      OccTransform.Translate 1 0 0].
Proof.
exact (proj2 (proj1 (proj2 get_transform_right_fold) 1 0 0 0 0 0 0 0 1 (PI / 2)
                vertical_axis)
         (conj quarter_turn_cos across_vertical_axis)).
Defined.

(** The order does not always show: a quarter turn about the vertical
    axis and a translation along that axis give one composite in the two
    orders, though the angle is neither 0 nor 180 degrees. *)
Lemma translate_along_axis_counterexample :
~ (forall x y z px py pz dx dy dz angle : R,
      sin angle <> 0 ->
      (dx, dy, dz) <> (0, 0, 0) ->
      OccTransform.get_transform
        [OccTransform.Translate x y z;
         OccTransform.Rotate (px, py, pz) (dx, dy, dz) angle]
      <> OccTransform.get_transform
           [OccTransform.Rotate (px, py, pz) (dx, dy, dz) angle;
            OccTransform.Translate x y z]).
Proof.
intros H.
apply (H 0 0 1 0 0 0 0 0 1 (PI / 2) quarter_turn_sin vertical_axis).
apply translate_rotate_swap; [exact vertical_axis|].
right. unfold cross.
repeat (match goal with |- (_, _) = (_, _) => apply f_equal2 end); ring.
Qed.

End TransformOrder.


(** * Further properties *)

(** ** The counter and the event loop *)

Section Balance.
Import OccOperation.

Lemma queued_queue_update_self (self : oid) (c : change) (w : world) :
  queued (_queue_update self c w) self = queued w self ++ [(self, c)].
Proof.
  unfold queued, _queue_update, timed_call. simpl.
  rewrite filter_app. f_equal.
  rewrite filter_cons_True by reflexivity. reflexivity.
Qed.

Lemma balanced_queue_update (o : oid) (c : change) (w : world) :
  balanced w -> balanced (_queue_update o c w).
Proof.
  intros H o' Ho'. apply on_heap_queue_update in Ho'.
  destruct (decide (o = o')) as [->|Hne].
  - rewrite pending_queue_update_self by exact Ho'.
    rewrite queued_queue_update_self, length_app, (H o' Ho'). simpl. lia.
  - rewrite pending_queue_update_other, queued_queue_update_other by exact Hne.
    apply H, Ho'.
Qed.

Lemma balanced_frame (f : proxy -> proxy) (o : oid) (w : world) :
  (forall p, _update_count (f p) = _update_count p) ->
  balanced w -> balanced (with_heap (alter f o) w).
Proof.
  intros Hf H o' Ho'. apply on_heap_frame in Ho'.
  rewrite pending_frame by exact Hf. apply H, Ho'.
Qed.

Lemma balanced_notify (c : change) (l : list oid) (w : world) :
  balanced w -> balanced (fold_left (fun w o => _queue_update o c w) l w).
Proof.
  revert w. induction l as [|o l IH]; intros w H; [exact H|].
  simpl. apply IH, balanced_queue_update, H.
Qed.

Lemma balanced_shape_changed (target : oid) (w : world) :
  balanced w -> balanced (shape_changed target w).
Proof.
  intros H. unfold shape_changed.
  destruct (heap w !! target); [apply balanced_notify|]; exact H.
Qed.

Lemma balanced_observe (target self : oid) (w : world) :
  balanced w -> balanced (observe target self w).
Proof. apply balanced_frame. reflexivity. Qed.

Lemma balanced_unobserve (target self : oid) (w : world) :
  balanced w -> balanced (unobserve target self w).
Proof. apply balanced_frame. reflexivity. Qed.

Lemma balanced_set_parameter (self : oid) (field : string) (value : obj) (w : world) :
  balanced w -> balanced (set_parameter self field value w).
Proof.
  intros H. unfold set_parameter. apply balanced_queue_update.
  apply balanced_frame; [reflexivity|exact H].
Qed.

Lemma balanced_set_spline (self target : oid) (w : world) :
  balanced w -> balanced (OccPipe.set_spline self target w).
Proof.
  intros H. unfold OccPipe.set_spline. apply balanced_queue_update.
  apply balanced_frame; [reflexivity|]. apply balanced_observe.
  destruct (OccPipe.old_spline w self); [apply balanced_unobserve|]; exact H.
Qed.

Lemma balanced_set_profile (self target : oid) (w : world) :
  balanced w -> balanced (OccPipe.set_profile self target w).
Proof.
  intros H. unfold OccPipe.set_profile. apply balanced_queue_update.
  apply balanced_frame; [reflexivity|]. apply balanced_observe.
  destruct (OccPipe.old_profile w self); [apply balanced_unobserve|]; exact H.
Qed.

Lemma balanced_set_shape (self target : oid) (w : world) :
  balanced w -> balanced (OccTransform.set_shape self target w).
Proof.
  intros H. unfold OccTransform.set_shape. apply balanced_observe.
  apply balanced_frame; [reflexivity|].
  destruct (OccTransform.old_shape w self); [apply balanced_unobserve|]; exact H.
Qed.

(** What one turn of the event loop does to the heap, the queue and the
    record, by the target of the call it takes. *)
Lemma fire_cons (w : world) (t : oid) (c : change) (rest : list (oid * change)) :
  event_loop w = (t, c) :: rest ->
  heap (fire w) = alter (fun p => set_update_count (_update_count p - 1) p) t (heap w) /\
  event_loop (fire w) = rest /\
  rebuilds (fire w)
  = rebuilds w ++
    match heap w !! t with
    | Some p =>
        if negb (_update_count p - 1 =? 0) then []
        else match declaration p with
             | Some d => [(t, c, d)]
             | None => []
             end
    | None => []
    end.
Proof.
  intros Hq. unfold fire, _dequeue_update. rewrite Hq. simpl.
  rewrite lookup_alter_eq.
  destruct (heap w !! t) as [p|]; simpl; [|rewrite app_nil_r; auto].
  destruct (_update_count p - 1 =? 0); simpl; [|rewrite app_nil_r; auto].
  destruct (declaration p); simpl; [|rewrite app_nil_r]; auto.
Qed.

Lemma balanced_fire (w : world) : balanced w -> balanced (fire w).
Proof.
  intros H. destruct (event_loop w) as [|[t c] rest] eqn:Hq.
  - unfold fire. rewrite Hq. exact H.
  - destruct (fire_cons w t c rest Hq) as (Hh & He & _).
    intros o Ho. unfold pending, queued. rewrite Hh, He.
    rewrite Hh in Ho. apply lookup_alter_is_Some in Ho.
    specialize (H o Ho). unfold pending, queued in H. rewrite Hq in H.
    destruct Ho as [p Hp]. rewrite Hp in H.
    destruct (decide (t = o)) as [->|Hne].
    + rewrite lookup_alter_eq, Hp. simpl.
      rewrite filter_cons_True in H by reflexivity. simpl in H. lia.
    + rewrite lookup_alter_ne, Hp by exact Hne.
      rewrite filter_cons_False in H by (simpl; exact Hne). exact H.
Qed.

Lemma balanced_perform (a : action) (w : world) : balanced w -> balanced (perform a w).
Proof.
  destruct a; simpl.
  - apply balanced_set_parameter.
  - apply balanced_shape_changed.
  - apply balanced_set_spline.
  - apply balanced_set_profile.
  - apply balanced_set_shape.
  - apply balanced_fire.
Qed.

Lemma quiescent_balanced (w : world) : quiescent w -> balanced w.
Proof.
  intros [Hq Hc] o [p Hp]. unfold pending, queued. rewrite Hp, Hq.
  rewrite (Hc o p Hp). reflexivity.
Qed.

End Balance.

(** X1: whatever writes, shape changes, rebindings and turns of the event
    loop follow a quiescent state, in whatever order, the pending counter
    of every proxy equals the number of its calls still waiting on the
    event loop; so it is never negative. *)
Theorem pending_counts_queued_calls :
  forall (w : world) (actions : list action),
    quiescent w ->
    balanced (run actions w) /\
    (forall o : oid, 0 <= pending (run actions w) o).
Proof.
  intros w actions Hq.
  assert (Hb : balanced (run actions w)).
  { apply quiescent_balanced in Hq. revert w Hq.
    induction actions as [|a actions IH]; intros w Hb; [exact Hb|].
    apply IH, balanced_perform, Hb. }
  split; [exact Hb|].
  intros o. destruct (heap (run actions w) !! o) as [p|] eqn:Hp.
  - rewrite (Hb o (ex_intro _ p Hp)). lia.
  - unfold pending. rewrite Hp. lia.
Qed.

Lemma one_node_quiescent : quiescent one_node.
Proof.
  split; [reflexivity|]. intros o p H. unfold one_node in H. simpl in H.
  apply lookup_singleton_Some in H. destruct H as [_ <-]. reflexivity.
Qed.

Lemma pending_counts_queued_calls_witness :
  balanced (run [SetParameter 1%positive "radius" (PyFloat 2%float);
                 Fire;
                 SetParameter 1%positive "radius" (PyFloat 3%float);
                 ShapeChanged 1%positive; Fire]
                one_node) /\
  (forall o : oid,
      0 <= pending (run [SetParameter 1%positive "radius" (PyFloat 2%float);
                         Fire;
                         SetParameter 1%positive "radius" (PyFloat 3%float);
                         ShapeChanged 1%positive; Fire]
                        one_node) o).
Proof.
  exact (pending_counts_queued_calls one_node _ one_node_quiescent).
Defined.

(** X2: in a state where the counters match the queue, the call the event
    loop fires rebuilds its target exactly when the target is live and no
    other call for it is waiting: a notification that arrived in between
    postpones the rebuild to the last call.  The rebuild is given the
    change of that last call. *)
Theorem rebuild_waits_for_last_call :
  forall (w : world) (t : oid) (c : change) (rest : list (oid * change))
         (p : proxy),
    balanced w ->
    event_loop w = (t, c) :: rest ->
    heap w !! t = Some p ->
    rebuilds (OccOperation.fire w)
    = rebuilds w ++
      match declaration p, filter (fun e => fst e = t) rest with
      | Some d, [] => [(t, c, d)]
      | _, _ => []
      end.
Proof.
  intros w t c rest p Hb Hq Hp.
  destruct (fire_cons w t c rest Hq) as (_ & _ & ->). rewrite Hp. f_equal.
  specialize (Hb t (ex_intro _ p Hp)). unfold pending, queued in Hb.
  rewrite Hp, Hq, filter_cons_True in Hb by reflexivity. simpl in Hb.
  destruct (filter (fun e => fst e = t) rest) as [|e l].
  - simpl in Hb. rewrite Hb. simpl. destruct (declaration p); reflexivity.
  - simpl in Hb. destruct (Z.eqb_spec (_update_count p - 1) 0) as [E|E]; [lia|].
    simpl. destruct (declaration p); reflexivity.
Qed.

Lemma busy_world_balanced : balanced busy_world.
Proof.
  intros o [p Hp]. unfold pending. rewrite Hp.
  destruct (decide (o = 1%positive)) as [->|H1].
  - vm_compute in Hp. injection Hp as <-. reflexivity.
  - destruct (decide (o = 2%positive)) as [->|H2].
    + vm_compute in Hp. injection Hp as <-. reflexivity.
    + unfold busy_world in Hp. simpl in Hp.
      rewrite lookup_insert_ne, lookup_singleton_ne in Hp by congruence.
      discriminate.
Qed.

Lemma rebuild_waits_for_last_call_witness :
  rebuilds (OccOperation.fire busy_world) = [] /\
  rebuilds (OccOperation.fire (OccOperation.fire (OccOperation.fire busy_world)))
  = [(2%positive, EmptyChange, ∅); (1%positive, MemberChange 2%positive "shape", ∅)].
Proof.
  split.
  - exact (rebuild_waits_for_last_call busy_world 1%positive EmptyChange
             [(2%positive, EmptyChange); (1%positive, MemberChange 2%positive "shape")]
             (mkProxy (Some ∅) 2 None None None [])
             busy_world_balanced eq_refl eq_refl).
  - vm_compute. reflexivity.
Defined.

Section Destroyed.
Import OccOperation.
Variable t : oid.

Lemma destroyed_frame (f : proxy -> proxy) (o : oid) (w : world) :
  (forall p, declaration p = None -> declaration (f p) = None) ->
  destroyed w t -> destroyed (with_heap (alter f o) w) t.
Proof.
  intros Hf (p & Hp & Hd). unfold destroyed, with_heap. simpl.
  destruct (decide (o = t)) as [->|Hne].
  - exists (f p). rewrite lookup_alter_eq, Hp. auto.
  - exists p. rewrite lookup_alter_ne by exact Hne. auto.
Qed.

Lemma destroyed_queue_update (o : oid) (c : change) (w : world) :
  destroyed w t -> destroyed (_queue_update o c w) t.
Proof.
  intros H. unfold _queue_update, timed_call.
  destruct (destroyed_frame (fun p => set_update_count (_update_count p + 1) p) o w
              (fun p Hp => Hp) H) as (p & Hp & Hd).
  exists p. auto.
Qed.

Lemma destroyed_notify (c : change) (l : list oid) (w : world) :
  destroyed w t -> destroyed (fold_left (fun w o => _queue_update o c w) l w) t.
Proof.
  revert w. induction l as [|o l IH]; intros w H; [exact H|].
  simpl. apply IH, destroyed_queue_update, H.
Qed.

Lemma rebuilds_notify (c : change) (l : list oid) (w : world) :
  rebuilds (fold_left (fun w o => _queue_update o c w) l w) = rebuilds w.
Proof.
  revert w. induction l as [|o l IH]; intros w; [reflexivity|].
  simpl. rewrite IH. reflexivity.
Qed.

Lemma destroyed_perform (a : action) (w : world) :
  destroyed w t -> destroyed (perform a w) t.
Proof.
  intros H. destruct a as [self field value|target|self target|self target|self target|];
    simpl.
  - unfold set_parameter. apply destroyed_queue_update.
    apply destroyed_frame; [|exact H]. intros p Hp. simpl. rewrite Hp. reflexivity.
  - unfold shape_changed. destruct (heap w !! target); [apply destroyed_notify|]; exact H.
  - unfold OccPipe.set_spline. apply destroyed_queue_update.
    apply destroyed_frame; [auto|]. apply destroyed_frame; [auto|].
    destruct (OccPipe.old_spline w self); [apply destroyed_frame; auto|exact H].
  - unfold OccPipe.set_profile. apply destroyed_queue_update.
    apply destroyed_frame; [auto|]. apply destroyed_frame; [auto|].
    destruct (OccPipe.old_profile w self); [apply destroyed_frame; auto|exact H].
  - unfold OccTransform.set_shape.
    apply destroyed_frame; [auto|]. apply destroyed_frame; [auto|].
    destruct (OccTransform.old_shape w self); [apply destroyed_frame; auto|exact H].
  - destruct (event_loop w) as [|[t' c] rest] eqn:Hq.
    + unfold fire. rewrite Hq. exact H.
    + destruct (fire_cons w t' c rest Hq) as (Hh & _ & _).
      destruct (destroyed_frame (fun p => set_update_count (_update_count p - 1) p) t' w
                  (fun p Hp => Hp) H) as (p & Hp & Hd).
      exists p. rewrite Hh. auto.
Qed.

Lemma rebuilds_of_perform (a : action) (w : world) :
  destroyed w t -> rebuilds_of (perform a w) t = rebuilds_of w t.
Proof.
  intros (p & Hp & Hd). unfold rebuilds_of.
  destruct a as [self field value|target|self target|self target|self target|];
    simpl.
  - reflexivity.
  - unfold shape_changed. destruct (heap w !! target); [rewrite rebuilds_notify|]; reflexivity.
  - unfold OccPipe.set_spline. destruct (OccPipe.old_spline w self); reflexivity.
  - unfold OccPipe.set_profile. destruct (OccPipe.old_profile w self); reflexivity.
  - unfold OccTransform.set_shape. destruct (OccTransform.old_shape w self); reflexivity.
  - destruct (event_loop w) as [|[t' c] rest] eqn:Hq.
    + unfold fire. rewrite Hq. reflexivity.
    + destruct (fire_cons w t' c rest Hq) as (_ & _ & ->).
      rewrite filter_app.
      destruct (decide (t' = t)) as [->|Hne].
      * rewrite Hp, Hd. destruct (negb _); simpl; apply app_nil_r.
      * destruct (heap w !! t') as [q|]; [|apply app_nil_r].
        destruct (negb _); [apply app_nil_r|].
        destruct (declaration q); [|apply app_nil_r].
        rewrite filter_cons_False by (simpl; exact Hne). apply app_nil_r.
Qed.

End Destroyed.

(** X3: a proxy whose declaration is gone is never rebuilt again: however
    many writes, shape changes, rebindings and turns of the event loop
    follow, the record holds no new rebuild of it, and its declaration
    stays gone. *)
Theorem destroyed_never_rebuilt :
  forall (w : world) (t : oid) (actions : list action),
    destroyed w t ->
    rebuilds_of (run actions w) t = rebuilds_of w t /\
    destroyed (run actions w) t.
Proof.
  intros w t actions. revert w.
  induction actions as [|a actions IH]; intros w H; [auto|].
  destruct (IH (perform a w) (destroyed_perform t a w H)) as [E D].
  split; [|exact D].
  change (run (a :: actions) w) with (run actions (perform a w)).
  rewrite E. apply rebuilds_of_perform, H.
Qed.

Lemma stale_world_destroyed : destroyed stale_world 1%positive.
Proof. eexists. split; reflexivity. Qed.

Lemma destroyed_never_rebuilt_witness :
  rebuilds_of (run [ShapeChanged 2%positive; ShapeChanged 2%positive; Fire; Fire]
                   stale_world) 1%positive
  = rebuilds_of stale_world 1%positive /\
  destroyed (run [ShapeChanged 2%positive; ShapeChanged 2%positive; Fire; Fire]
                 stale_world) 1%positive.
Proof.
  exact (destroyed_never_rebuilt stale_world 1%positive _ stale_world_destroyed).
Defined.

(** ** Rebinding, again *)


(** X4: rebinding the explicit shape of a Transform from [X] to [Y]
    unobserves [X], stores [Y] and observes [Y]: afterwards the transform
    observes [Y] and, besides [Y], exactly the nodes other than [X] it
    observed before; a later shape change of [Y] queues an update of the
    transform and one of [X] does not. *)
Theorem transform_rebind_observer :
  forall (w : world) (self X Y : oid),
    is_Some (heap w !! self) ->
    is_Some (heap w !! Y) ->
    OccTransform.old_shape w self = Some X ->
    let w' := OccTransform.set_shape self Y w in
    OccTransform.old_shape w' self = Some Y /\
    (forall Z : oid,
        OccOperation.observes w' self Z
        <-> Z = Y \/ (Z <> X /\ OccOperation.observes w self Z)) /\
    pending w' self < pending (OccOperation.shape_changed Y w') self /\
    (self, MemberChange Y "shape") ∈ event_loop (OccOperation.shape_changed Y w') /\
    (X <> Y ->
     pending (OccOperation.shape_changed X w') self = pending w' self /\
     queued (OccOperation.shape_changed X w') self = queued w' self).
Proof.
  intros w self X Y Hs HY HX w'.
  assert (Hw : w' = OccOperation.observe Y self
                      (with_heap (alter (set_old_shape (Some Y)) self)
                         (OccOperation.unobserve X self w))).
  { subst w'. unfold OccTransform.set_shape. rewrite HX. reflexivity. }
  assert (Hobs : forall Z, OccOperation.observes w' self Z
                           <-> Z = Y \/ (Z <> X /\ OccOperation.observes w self Z)).
  { intros Z. rewrite Hw. apply set_shape_observes. exact HY. }
  assert (Hs' : is_Some (heap w' !! self)).
  { rewrite Hw. unfold OccOperation.observe. apply on_heap_frame, on_heap_frame.
    unfold OccOperation.unobserve. apply on_heap_frame. exact Hs. }
  split.
  { rewrite Hw. unfold OccTransform.old_shape, OccOperation.observe.
    rewrite (field_frame _old_shape) by reflexivity.
    assert (Hq : is_Some (heap (OccOperation.unobserve X self w) !! self)).
    { unfold OccOperation.unobserve. apply on_heap_frame. exact Hs. }
    destruct Hq as [q Hq].
    unfold with_heap at 1. cbn [heap]. rewrite lookup_alter_eq, Hq. reflexivity. }
  split; [exact Hobs|].
  assert (HobsY : OccOperation.observes w' self Y) by (apply Hobs; auto).
  split; [apply shape_changed_observed; assumption|].
  split; [apply shape_changed_observed; assumption|].
  intros Hne. apply shape_changed_unobserved. intros H. apply Hobs in H.
  destruct H as [E|[E _]]; congruence.
Qed.

Lemma transform_rebind_observer_witness :
  OccTransform.old_shape
    (OccTransform.set_shape 1%positive 3%positive transform_world) 1%positive
  = Some 3%positive.
Proof.
  exact (proj1 (transform_rebind_observer transform_world
                  1%positive 2%positive 3%positive
                  (ex_intro _ _ eq_refl) (ex_intro _ _ eq_refl) eq_refl)).
Defined.

(** X5: when the spline and the profile of a Pipe are the same node [X],
    rebinding one of them to another node [Y] removes the one observer
    the two share: the other reference still names [X], but the pipe no
    longer observes [X], and a shape change of [X] queues no update of
    it. *)
Theorem pipe_shared_reference_dropped :
  forall (w : world) (self X Y : oid),
    is_Some (heap w !! self) ->
    is_Some (heap w !! Y) ->
    X <> Y ->
    OccPipe.old_spline w self = Some X ->
    OccPipe.old_profile w self = Some X ->
    (let w' := OccPipe.set_spline self Y w in
     OccPipe.old_profile w' self = Some X /\
     ~ OccOperation.observes w' self X /\
     pending (OccOperation.shape_changed X w') self = pending w' self /\
     queued (OccOperation.shape_changed X w') self = queued w' self) /\
    (let w' := OccPipe.set_profile self Y w in
     OccPipe.old_spline w' self = Some X /\
     ~ OccOperation.observes w' self X /\
     pending (OccOperation.shape_changed X w') self = pending w' self /\
     queued (OccOperation.shape_changed X w') self = queued w' self).
Proof.
  intros w self X Y Hs HY Hne HS HP. split; intros w'.
  - destruct (rebind_rebinds _old_spline set_old_spline
                (fun _ _ => eq_refl) (fun _ _ => eq_refl) (fun _ _ => eq_refl)
                OccPipe.old_spline OccPipe.set_spline
                (fun _ _ => eq_refl) (fun _ _ _ => eq_refl)
                w self X Y Hs HY HS) as (Hw & _ & _ & HnX & _ & _ & _ & _ & Hch).
    fold w' in Hw, HnX, Hch.
    split; [|split; [exact (HnX Hne)|exact (Hch Hne)]].
    rewrite Hw. unfold OccPipe.old_profile.
    rewrite (field_queue_update _old_profile) by reflexivity.
    rewrite (field_frame _old_profile) by reflexivity.
    unfold OccOperation.observe, OccOperation.unobserve.
    rewrite !(field_frame _old_profile) by reflexivity. exact HP.
  - destruct (rebind_rebinds _old_profile set_old_profile
                (fun _ _ => eq_refl) (fun _ _ => eq_refl) (fun _ _ => eq_refl)
                OccPipe.old_profile OccPipe.set_profile
                (fun _ _ => eq_refl) (fun _ _ _ => eq_refl)
                w self X Y Hs HY HP) as (Hw & _ & _ & HnX & _ & _ & _ & _ & Hch).
    fold w' in Hw, HnX, Hch.
    split; [|split; [exact (HnX Hne)|exact (Hch Hne)]].
    rewrite Hw. unfold OccPipe.old_spline.
    rewrite (field_queue_update _old_spline) by reflexivity.
    rewrite (field_frame _old_spline) by reflexivity.
    unfold OccOperation.observe, OccOperation.unobserve.
    rewrite !(field_frame _old_spline) by reflexivity. exact HS.
Qed.

Lemma three_neq_two : 2%positive <> 3%positive.
Proof. discriminate. Qed.

Lemma pipe_shared_reference_dropped_witness :
  OccPipe.old_profile (OccPipe.set_spline 1%positive 3%positive shared_world) 1%positive
  = Some 2%positive /\
  ~ OccOperation.observes (OccPipe.set_spline 1%positive 3%positive shared_world)
      1%positive 2%positive.
Proof.
  pose proof (proj1 (pipe_shared_reference_dropped shared_world
                       1%positive 2%positive 3%positive
                       (ex_intro _ _ eq_refl) (ex_intro _ _ eq_refl)
                       three_neq_two eq_refl eq_refl)) as H.
  exact (conj (proj1 H) (proj1 (proj2 H))).
Defined.

Section BindBoth.
Import OccOperation.

Lemma set_spline_at (w : world) (self target : oid) (cnt : Z) (d : members) :
  at_node w self cnt d ->
  at_node (OccPipe.set_spline self target w) self (cnt + 1) d /\
  event_loop (OccPipe.set_spline self target w) = event_loop w ++ [(self, EmptyChange)] /\
  rebuilds (OccPipe.set_spline self target w) = rebuilds w.
Proof.
  intros H. unfold OccPipe.set_spline.
  set (w1 := match OccPipe.old_spline w self with
             | Some old => unobserve old self w
             | None => w
             end).
  assert (H1 : at_node w1 self cnt d /\ event_loop w1 = event_loop w
               /\ rebuilds w1 = rebuilds w).
  { subst w1. destruct (OccPipe.old_spline w self); [|auto].
    split; [|auto]. apply at_node_frame; auto. }
  destruct H1 as (H1 & E1 & R1).
  set (w2 := with_heap _ (observe target self w1)).
  assert (H2 : at_node w2 self cnt d).
  { subst w2. apply at_node_frame; auto. apply at_node_frame; auto. }
  destruct (queue_update_at self w2 cnt d EmptyChange H2) as (A & B & C).
  split; [exact A|]. rewrite B, C. subst w2. simpl. rewrite E1, R1. auto.
Qed.

Lemma set_profile_at (w : world) (self target : oid) (cnt : Z) (d : members) :
  at_node w self cnt d ->
  at_node (OccPipe.set_profile self target w) self (cnt + 1) d /\
  event_loop (OccPipe.set_profile self target w) = event_loop w ++ [(self, EmptyChange)] /\
  rebuilds (OccPipe.set_profile self target w) = rebuilds w.
Proof.
  intros H. unfold OccPipe.set_profile.
  set (w1 := match OccPipe.old_profile w self with
             | Some old => unobserve old self w
             | None => w
             end).
  assert (H1 : at_node w1 self cnt d /\ event_loop w1 = event_loop w
               /\ rebuilds w1 = rebuilds w).
  { subst w1. destruct (OccPipe.old_profile w self); [|auto].
    split; [|auto]. apply at_node_frame; auto. }
  destruct H1 as (H1 & E1 & R1).
  set (w2 := with_heap _ (observe target self w1)).
  assert (H2 : at_node w2 self cnt d).
  { subst w2. apply at_node_frame; auto. apply at_node_frame; auto. }
  destruct (queue_update_at self w2 cnt d EmptyChange H2) as (A & B & C).
  split; [exact A|]. rewrite B, C. subst w2. simpl. rewrite E1, R1. auto.
Qed.

End BindBoth.

(** X6: binding the spline and then the profile of an idle, live Pipe
    queues two updates and rebuilds nothing yet; the first queued call
    that fires only lowers the counter, the second rebuilds the pipe,
    once. *)
Theorem pipe_bind_both_one_rebuild :
  forall (w : world) (self S P : oid) (d : members),
    at_node w self 0 d ->
    event_loop w = [] ->
    let w2 := OccPipe.set_profile self P (OccPipe.set_spline self S w) in
    pending w2 self = 2 /\
    event_loop w2 = [(self, EmptyChange); (self, EmptyChange)] /\
    rebuilds w2 = rebuilds w /\
    rebuilds (OccOperation.fire w2) = rebuilds w /\
    rebuilds (OccOperation.fire (OccOperation.fire w2))
      = rebuilds w ++ [(self, EmptyChange, d)] /\
    pending (OccOperation.fire (OccOperation.fire w2)) self = 0.
Proof.
  intros w self S P d H Hq w2.
  destruct (set_spline_at w self S 0 d H) as (H1 & E1 & R1).
  destruct (set_profile_at _ self P _ d H1) as (H2 & E2 & R2).
  fold w2 in H2, E2, R2. rewrite E1, Hq in E2. simpl in E2, H2.
  destruct (fire_pending self w2 2 d EmptyChange _ H2 E2) as (H3 & E3 & R3); [lia|].
  destruct (fire_settled self _ d EmptyChange [] H3 E3) as (H4 & E4 & R4).
  split; [apply (at_node_pending self _ _ _ H2)|].
  split; [exact E2|].
  split; [rewrite R2, R1; reflexivity|].
  split; [rewrite R3, R2, R1; reflexivity|].
  split; [rewrite R4, R3, R2, R1; reflexivity|].
  apply (at_node_pending self _ _ _ H4).
Qed.

Lemma pipe_world_at : at_node pipe_world 1%positive 0 ∅.
Proof. eexists. repeat split. Qed.

Lemma pipe_bind_both_one_rebuild_witness :
  rebuilds (OccOperation.fire (OccOperation.fire
     (OccPipe.set_profile 1%positive 3%positive
        (OccPipe.set_spline 1%positive 3%positive pipe_world))))
  = [(1%positive, EmptyChange, ∅)].
Proof.
  exact (proj1 (proj2 (proj2 (proj2 (proj2
    (pipe_bind_both_one_rebuild pipe_world 1%positive 3%positive 3%positive ∅
       pipe_world_at eq_refl)))))).
Defined.

(** ** Boolean operations, again *)


(** X7: a boolean rebuild reads nothing of the shape the node held
    before: [create_shape] assigns the shape first, so two rebuilds that
    start from different shapes with the same kernel log behind them end
    alike in everything, the outcome, the shape and the calls made, and
    rebuilding again over the result of a rebuild gives the same shape.
    (Calls into the kernel are taken to return.) *)
Theorem boolean_rebuild_forgets_history :
  forall (k : OccBooleanOperation.kind) (d : OccBooleanOperation.Declaration)
         (children : list OccShape) (held held' : obj) (calls : list kcall),
    OccBooleanOperation.update_shape k d children (mkState held calls)
    = OccBooleanOperation.update_shape k d children (mkState held' calls) /\
    self_shape (snd (OccBooleanOperation.update_shape k d children
                       (snd (OccBooleanOperation.update_shape k d children
                               (mkState held calls)))))
    = self_shape (snd (OccBooleanOperation.update_shape k d children
                         (mkState held calls))).
Proof.
  intros k d children held held' calls.
  split.
  - unfold OccBooleanOperation.update_shape, bind.
    assert (E : OccBooleanOperation.create_shape k d (mkState held calls)
                = OccBooleanOperation.create_shape k d (mkState held' calls)).
    { unfold OccBooleanOperation.create_shape.
      destruct (truthy (OccBooleanOperation.shape1 d)
                && truthy (OccBooleanOperation.shape2 d)); reflexivity. }
    rewrite E. reflexivity.
  - destruct (update_shape_run k d children
                (snd (OccBooleanOperation.update_shape k d children
                        (mkState held calls)))) as [_ ->].
    destruct (update_shape_run k d children (mkState held calls)) as [_ ->].
    reflexivity.
Qed.

(** X8: with an explicit operand absent, the rebuild reduces the children
    from the first one that has a shape: the children before it, whose
    shape is none, are skipped, its shape is taken as it is, and every
    later child is folded in with the kernel operation in declared order.
    When no child has a shape the result has none either. *)
Theorem boolean_children_only_reduction :
  forall (k : OccBooleanOperation.kind) (d : OccBooleanOperation.Declaration)
         (skipped : list OccShape) (st : rebuild_state),
    truthy (OccBooleanOperation.shape1 d) = false \/
    truthy (OccBooleanOperation.shape2 d) = false ->
    Forall (fun s => truthy (shape s) = false) skipped ->
    truthy (self_shape (snd (OccBooleanOperation.update_shape k d skipped st))) = false /\
    (forall (c : OccShape) (rest : list OccShape),
        truthy (shape c) = true ->
        self_shape (snd (OccBooleanOperation.update_shape k d (skipped ++ c :: rest) st))
        = fold_left (OccBooleanOperation.step k d) rest (shape c)).
Proof.
  intros k d skipped st H Hs.
  assert (E : truthy (OccBooleanOperation.shape1 d)
              && truthy (OccBooleanOperation.shape2 d) = false).
  { destruct H as [-> | ->]; [reflexivity | apply andb_false_r]. }
  split.
  - destruct (update_shape_run k d skipped st) as [_ ->]. rewrite E.
    apply fold_loop_step_none; [reflexivity|exact Hs].
  - intros c rest Hc.
    destruct (update_shape_run k d (skipped ++ c :: rest) st) as [_ ->]. rewrite E.
    rewrite fold_loop_step_falsy by (reflexivity || exact Hs).
    apply fold_loop_step_truthy, Hc.
Qed.

Lemma boolean_children_only_reduction_witness :
  self_shape (snd (OccBooleanOperation.update_shape OccBooleanOperation.Cut
     {| OccBooleanOperation.shape1 := PyNone;
        OccBooleanOperation.shape2 := PyNone;
        OccBooleanOperation.pave_filler := PyNone |}
     ([unbuilt] ++ box 3 :: [box 4; box 5]) idle))
  = fold_left (OccBooleanOperation.step OccBooleanOperation.Cut
                 {| OccBooleanOperation.shape1 := PyNone;
                    OccBooleanOperation.shape2 := PyNone;
                    OccBooleanOperation.pave_filler := PyNone |})
              [box 4; box 5] (Maker 3).
Proof.
  exact (proj2 (boolean_children_only_reduction OccBooleanOperation.Cut
     {| OccBooleanOperation.shape1 := PyNone;
        OccBooleanOperation.shape2 := PyNone;
        OccBooleanOperation.pave_filler := PyNone |}
     [unbuilt] idle (or_introl eq_refl)
     (@List.Forall_cons _ _ unbuilt [] eq_refl (@List.Forall_nil _ _)))
     (box 3) [box 4; box 5] eq_refl).
Defined.

(** ** Fillet, chamfer and thick solid, again *)

(** X9: a Fillet works on its first child alone and needs that child's
    shape to be a builder: otherwise the rebuild raises an AttributeError
    for [Shape] and touches nothing.  With a builder it makes one fillet
    builder on the child's shape and adds every resolved edge (the
    declared ones, or all edges of the child's topology when none is
    declared) in order, each with the declared radius, and publishes the
    builder. *)
Theorem fillet_adds_every_edge :
  forall (d : OccFillet.Declaration) (c : OccShape) (rest : list OccShape)
         (st : rebuild_state),
    let es := if nonempty (OccFillet.edges d) then OccFillet.edges d
              else Topology.edges (topology c) in
    let r := OccFillet.update_shape d (c :: rest) st in
    if has_Shape (shape c) then
      fst r = Return tt /\
      self_shape (snd r)
      = New BRepFilletAPI_MakeFillet [ShapeOf (shape c)]
            (map (fun edge => [PyFloat (OccFillet.radius d); edge]) es) /\
      submitted "Add" (kernel (snd r))
      = submitted "Add" (kernel st)
          ++ map (fun edge => [PyFloat (OccFillet.radius d); edge]) es /\
      length (submitted "Add" (kernel (snd r)))
      = (length (submitted "Add" (kernel st)) + length es)%nat
    else r = (Raise (AttributeError "Shape"), st).
Proof.
  intros d c rest st es r. subst r. rewrite fillet_update_shape_child.
  destruct (has_Shape (shape c)); [|reflexivity].
  cbv zeta. fold es. cbn [fst snd self_shape kernel].
  assert (E : submitted "Add"
                ((kernel st ++ [KMethod (shape c) "Shape" []]
                    ++ [KNew BRepFilletAPI_MakeFillet [ShapeOf (shape c)]])
                   ++ add_calls "Add" BRepFilletAPI_MakeFillet [ShapeOf (shape c)] []
                        (map (fun edge => [PyFloat (OccFillet.radius d); edge]) es))
              = submitted "Add" (kernel st)
                  ++ map (fun edge => [PyFloat (OccFillet.radius d); edge]) es).
  { rewrite !submitted_app, submitted_add_calls. simpl. rewrite app_nil_r. reflexivity. }
  repeat split; [exact E|].
  rewrite E, length_app, length_map. reflexivity.
Qed.

(** X13: a Chamfer whose resolved edges or resolved faces are empty adds
    nothing: the chamfer builder is made on the first child's shape and
    published with no edge, and no error is raised. *)
Theorem chamfer_nothing_to_pair :
  forall (d : OccChamfer.Declaration) (c : OccShape) (rest : list OccShape)
         (st : rebuild_state),
    let es := if nonempty (OccChamfer.edges d) then OccChamfer.edges d
              else Topology.edges (topology c) in
    let fs := if nonempty (OccChamfer.faces d) then OccChamfer.faces d
              else Topology.faces (topology c) in
    es = [] \/ fs = [] ->
    fst (OccChamfer.update_shape d (c :: rest) st) = Return tt /\
    self_shape (snd (OccChamfer.update_shape d (c :: rest) st))
    = New BRepFilletAPI_MakeChamfer [as_shape (shape c)] [] /\
    submitted "Add" (kernel (snd (OccChamfer.update_shape d (c :: rest) st)))
    = submitted "Add" (kernel st).
Proof.
  intros d c rest st es fs H. rewrite chamfer_update_shape_child.
  cbv zeta. fold es fs.
  assert (E : zip es fs = []).
  { destruct H as [-> | ->]; [reflexivity|]. destruct es; reflexivity. }
  rewrite E. cbn [fst snd self_shape kernel map add_calls].
  repeat split. rewrite app_nil_r, !submitted_app.
  destruct (has_Shape (shape c)); simpl; rewrite !app_nil_r; reflexivity.
Qed.

Lemma chamfer_nothing_to_pair_witness :
  self_shape (snd (OccChamfer.update_shape
     {| OccChamfer.distance := 1%float; OccChamfer.distance2 := 0%float;
        OccChamfer.edges := [Topo 11]; OccChamfer.faces := [] |}
     [box 3] idle))
  = New BRepFilletAPI_MakeChamfer [ShapeOf (Maker 3)] [].
Proof.
  exact (proj1 (proj2 (chamfer_nothing_to_pair
     {| OccChamfer.distance := 1%float; OccChamfer.distance2 := 0%float;
        OccChamfer.edges := [Topo 11]; OccChamfer.faces := [] |}
     (box 3) [] idle (or_intror eq_refl)))).
Defined.

Section ThickSolidRuns.
Import OccThickSolid.

(** The loop that fills the face list. *)
Lemma append_faces_run (fs : list obj) (st : rebuild_state) :
  for_fold fs (New TopTools_ListOfShape [] [])
           (fun faces f => call_add "Append" faces [f]) st
  = (Return (face_list fs),
     mkState (self_shape st)
             (kernel st ++ add_calls "Append" TopTools_ListOfShape [] []
                             (map (fun f => [f]) fs))).
Proof. apply (for_fold_add_run "Append" (fun f => [f])). Qed.

Lemma get_faces_child (d : Declaration) (c : OccShape) (st : rebuild_state) :
  get_faces d (Some c) st
  = (Return (if nonempty (resolved_closing_faces d c)
             then Some (resolved_closing_faces d c) else None), st).
Proof.
  unfold get_faces, resolved_closing_faces, getattr_topology.
  destruct (closing_faces d) as [|f fs]; simpl.
  - unfold bind, ret. destruct (Topology.faces (topology c)); reflexivity.
  - reflexivity.
Qed.

(** What follows once a non-empty list of faces is at hand. *)
Lemma thick_solid_build (d : Declaration) (s : option OccShape) (l : list obj)
      (st : rebuild_state) :
  nonempty l = true ->
  (faces <- for_fold l (New TopTools_ListOfShape [] [])
              (fun faces f => call_add "Append" faces [f]) ;;
   empty <- call_IsEmpty faces ;;
   if empty : bool then ret tt
   else
     sh <- getattr_shape s ;;
     a <- call_Shape sh ;;
     r <- kernel_new BRepOffsetAPI_MakeThickSolid
            [a; faces; PyFloat (offset d); PyFloat (tolerance d);
             OccOffset.offset_modes (offset_mode d); PyBool (intersection d);
             PyBool false; OccOffset.join_types (join_type d)] ;;
     set_self_shape r) st
  = let log := kernel st
                 ++ add_calls "Append" TopTools_ListOfShape [] [] (map (fun f => [f]) l)
                 ++ [KMethod (face_list l) "IsEmpty" []] in
    match s with
    | None => (Raise (AttributeError "'NoneType' object has no attribute 'shape'"),
               mkState (self_shape st) log)
    | Some c =>
        if has_Shape (shape c) then
          (Return tt,
           mkState (New BRepOffsetAPI_MakeThickSolid (thick_solid_args d c l) [])
                   (log ++ [KMethod (shape c) "Shape" [];
                            KNew BRepOffsetAPI_MakeThickSolid (thick_solid_args d c l)]))
        else (Raise (AttributeError "Shape"), mkState (self_shape st) log)
    end.
Proof.
  intros Hne.
  assert (Hne' : nonempty (map (fun f : obj => [f]) l) = true)
    by (destruct l; [discriminate|reflexivity]).
  unfold bind at 1. rewrite append_faces_run.
  unfold bind at 1. unfold call_IsEmpty, face_list. unfold bind at 1.
  unfold log at 1, ret at 1. cbv beta iota zeta. cbn [self_shape kernel app].
  rewrite Hne'. cbn [negb].
  destruct s as [c|]; [|rewrite <- !app_assoc; reflexivity].
  unfold bind at 1. unfold getattr_shape, ret at 1. cbv beta iota.
  unfold call_Shape. destruct (has_Shape (shape c)).
  - unfold bind at 1. unfold bind at 1. unfold log at 1, ret at 1.
    cbv beta iota. cbn [self_shape kernel].
    unfold bind at 1. unfold kernel_new at 1. unfold bind at 1.
    unfold log at 1, ret at 1. cbv beta iota. cbn [self_shape kernel].
    unfold set_self_shape, thick_solid_args, face_list. cbn [self_shape kernel].
    rewrite <- !app_assoc. reflexivity.
  - unfold bind at 1. unfold raise. rewrite <- !app_assoc. reflexivity.
Qed.

Lemma thick_solid_update_shape_child (d : Declaration) (c : OccShape)
      (rest : list OccShape) (st : rebuild_state) :
  update_shape d (c :: rest) st
  = let fs := resolved_closing_faces d c in
    let st0 := mkState (self_shape st) (kernel st ++ [KNew TopTools_ListOfShape []]) in
    if nonempty fs then
      let log := kernel st0
                   ++ add_calls "Append" TopTools_ListOfShape [] [] (map (fun f => [f]) fs)
                   ++ [KMethod (face_list fs) "IsEmpty" []] in
      if has_Shape (shape c) then
        (Return tt,
         mkState (New BRepOffsetAPI_MakeThickSolid (thick_solid_args d c fs) [])
                 (log ++ [KMethod (shape c) "Shape" [];
                          KNew BRepOffsetAPI_MakeThickSolid (thick_solid_args d c fs)]))
      else (Raise (AttributeError "Shape"), mkState (self_shape st) log)
    else (Raise (TypeError "'NoneType' object is not iterable"), st0).
Proof.
  unfold update_shape, OccOffset.get_shape.
  unfold bind at 1. unfold kernel_new at 1. unfold bind at 1.
  unfold log at 1, ret at 1. cbv beta iota.
  unfold bind at 1. rewrite get_faces_child. cbv zeta.
  destruct (nonempty (resolved_closing_faces d c)) eqn:Hne; [|reflexivity].
  unfold iterate. unfold bind at 1. unfold ret at 1. cbv beta iota.
  rewrite (thick_solid_build d (Some c) _ _ Hne). reflexivity.
Qed.

Lemma thick_solid_update_shape_childless (d : Declaration) (st : rebuild_state) :
  update_shape d [] st
  = let st0 := mkState (self_shape st) (kernel st ++ [KNew TopTools_ListOfShape []]) in
    if nonempty (closing_faces d) then
      (Raise (AttributeError "'NoneType' object has no attribute 'shape'"),
       mkState (self_shape st)
               (kernel st0
                  ++ add_calls "Append" TopTools_ListOfShape [] []
                       (map (fun f => [f]) (closing_faces d))
                  ++ [KMethod (face_list (closing_faces d)) "IsEmpty" []]))
    else (Raise (AttributeError "'NoneType' object has no attribute 'topology'"), st0).
Proof.
  unfold update_shape, OccOffset.get_shape.
  unfold bind at 1. unfold kernel_new at 1. unfold bind at 1.
  unfold log at 1, ret at 1. cbv beta iota.
  unfold bind at 1. unfold get_faces. cbv zeta.
  destruct (nonempty (closing_faces d)) eqn:Hne; [|reflexivity].
  unfold ret at 1. unfold iterate. unfold bind at 1. unfold ret at 1. cbv beta iota.
  rewrite (thick_solid_build d None _ _ Hne). reflexivity.
Qed.

End ThickSolidRuns.

(** X10: a ThickSolid rebuild that returns has published a thick solid:
    it had a first child, a non-empty list of closing faces was resolved
    from the declaration or from that child, and the node's shape is the
    builder made from the child's shape and those faces.  It never
    returns without assigning a shape. *)
Theorem thick_solid_returns_only_built :
  forall (d : OccThickSolid.Declaration) (children : list OccShape)
         (st : rebuild_state),
    fst (OccThickSolid.update_shape d children st) = Return tt ->
    exists (c : OccShape) (rest : list OccShape),
      children = c :: rest /\
      has_Shape (shape c) = true /\
      nonempty (resolved_closing_faces d c) = true /\
      self_shape (snd (OccThickSolid.update_shape d children st))
      = New BRepOffsetAPI_MakeThickSolid
            (thick_solid_args d c (resolved_closing_faces d c)) [].
Proof.
  intros d [|c rest] st H.
  - rewrite thick_solid_update_shape_childless in H. cbv zeta in H.
    destruct (nonempty (OccThickSolid.closing_faces d)); discriminate H.
  - exists c, rest. rewrite thick_solid_update_shape_child in H |- *.
    cbv zeta in H |- *.
    destruct (nonempty (resolved_closing_faces d c)); [|discriminate H].
    destruct (has_Shape (shape c)); [|discriminate H]. auto.
Qed.

Lemma thick_solid_returns_only_built_witness :
  exists (c : OccShape) (rest : list OccShape),
    [two_faced] = c :: rest /\
    has_Shape (shape c) = true /\
    nonempty (resolved_closing_faces thick_solid_undeclared c) = true /\
    self_shape (snd (OccThickSolid.update_shape thick_solid_undeclared [two_faced] idle))
    = New BRepOffsetAPI_MakeThickSolid
          (thick_solid_args thick_solid_undeclared c
             (resolved_closing_faces thick_solid_undeclared c)) [].
Proof.
  exact (thick_solid_returns_only_built thick_solid_undeclared [two_faced] idle eq_refl).
Defined.

(** X11: on a first child whose shape is a builder, with closing faces
    resolved, a ThickSolid appends the faces to a fresh face list in
    order, tests that the list is not empty, and publishes the builder
    made from the child's shape, the list and the declared offset,
    tolerance, mode, intersection flag and join type.  With no face
    declared the list holds the first face of the child's topology and no
    other. *)
Theorem thick_solid_builds_from_faces :
  forall (d : OccThickSolid.Declaration) (c : OccShape) (rest : list OccShape)
         (st : rebuild_state),
    has_Shape (shape c) = true ->
    nonempty (resolved_closing_faces d c) = true ->
    let fs := resolved_closing_faces d c in
    let st' := snd (OccThickSolid.update_shape d (c :: rest) st) in
    fst (OccThickSolid.update_shape d (c :: rest) st) = Return tt /\
    self_shape st' = New BRepOffsetAPI_MakeThickSolid (thick_solid_args d c fs) [] /\
    submitted "Append" (kernel st')
    = submitted "Append" (kernel st) ++ map (fun f => [f]) fs /\
    (OccThickSolid.closing_faces d = [] ->
     exists f : obj, hd_error (Topology.faces (topology c)) = Some f /\ fs = [f]).
Proof.
  intros d c rest st Hc Hfs fs st'. subst st' fs.
  rewrite thick_solid_update_shape_child. cbv zeta. rewrite Hfs, Hc.
  cbn [fst snd self_shape kernel].
  repeat split.
  - rewrite !submitted_app, submitted_add_calls. simpl. rewrite !app_nil_r. reflexivity.
  - intros Hd. unfold resolved_closing_faces in *. rewrite Hd in *. simpl in *.
    destruct (Topology.faces (topology c)) as [|f more]; [discriminate Hfs|].
    exists f. auto.
Qed.

Lemma thick_solid_builds_from_faces_witness :
  submitted "Append"
    (kernel (snd (OccThickSolid.update_shape thick_solid_undeclared [two_faced] idle)))
  = [[Topo 31]].
Proof.
  exact (proj1 (proj2 (proj2
    (thick_solid_builds_from_faces thick_solid_undeclared two_faced [] idle
       eq_refl eq_refl)))).
Defined.

(** X12: a ThickSolid without children always fails with an
    AttributeError and keeps its shape, but not before touching the
    kernel: the face list is made, and declared closing faces are all
    appended to it, before the missing child is noticed. *)
Theorem thick_solid_no_child_raises :
  forall (d : OccThickSolid.Declaration) (st : rebuild_state),
    let r := OccThickSolid.update_shape d [] st in
    (exists msg : string, fst r = Raise (AttributeError msg)) /\
    self_shape (snd r) = self_shape st /\
    (exists more : list kcall,
        kernel (snd r) = kernel st ++ KNew TopTools_ListOfShape [] :: more) /\
    submitted "Append" (kernel (snd r))
    = submitted "Append" (kernel st)
        ++ map (fun f => [f]) (OccThickSolid.closing_faces d).
Proof.
  intros d st r. subst r. rewrite thick_solid_update_shape_childless. cbv zeta.
  destruct (nonempty (OccThickSolid.closing_faces d)) eqn:Hne;
    cbn [fst snd self_shape kernel].
  - split; [eexists; reflexivity|]. split; [reflexivity|]. split.
    + eexists. rewrite <- app_assoc. reflexivity.
    + rewrite !submitted_app, submitted_add_calls. simpl.
      rewrite !app_nil_r. reflexivity.
  - split; [eexists; reflexivity|]. split; [reflexivity|]. split.
    + exists []. reflexivity.
    + destruct (OccThickSolid.closing_faces d); [|discriminate Hne].
      rewrite submitted_app. reflexivity.
Qed.


(** ** The rebuilds of Pipe, ThruSections, Offset and Transform *)

Section PipeResolution.
Import Rebuild Rebuild.Pipe.
Context {U : Upstream}.

Lemma update_shape_sweep (d : Declaration) (children : list Child) :
  update_shape d children
  = let shapes := map proxy_of (List.filter is_OccShape children) in
    spline_ <~ match spline d with
               | Some p => Built p
               | None => index shapes 0
               end ;;
    profile_ <~ match profile d with
                | Some p => Built p
                | None => index shapes (match spline d with Some _ => 1 | None => 0 end)
                end ;;
    sweep d spline_ profile_.
Proof.
  unfold update_shape, sweep. cbv zeta.
  destruct (match spline d with Some p => Built p | None => _ end) as [sp|e];
    [|reflexivity].
  cbn [and_then].
  destruct (match profile d with Some p => Built p | None => _ end) as [pr|e];
    [|reflexivity].
  cbn [and_then].
  destruct (Wire (shape sp)); [|reflexivity]. cbn [and_then].
  destruct (Shape (shape pr)); [|reflexivity]. cbn [and_then].
  destruct (fill_mode d); reflexivity.
Qed.

End PipeResolution.

(** X15: a Pipe with neither spline nor profile declared takes both from
    its first child that is a shape: the pipe is swept along the wire of
    that child with the shape of the same child as its section, and no
    later child is used.  Without a shape among the children the rebuild
    raises an IndexError. *)
Theorem pipe_positional_uses_first_child_twice :
  forall (U : Upstream) (d : Rebuild.Pipe.Declaration) (children : list Rebuild.Child),
    Rebuild.Pipe.spline d = None ->
    Rebuild.Pipe.profile d = None ->
    Rebuild.Pipe.update_shape d children
    = match List.filter Rebuild.is_OccShape children with
      | [] => Failed (IndexError "list index out of range")
      | c :: _ => Rebuild.Pipe.sweep d (Rebuild.proxy_of c) (Rebuild.proxy_of c)
      end.
Proof.
  intros U d children Hs Hp. rewrite update_shape_sweep. cbv zeta. rewrite Hs, Hp.
  destruct (List.filter Rebuild.is_OccShape children) as [|c l]; reflexivity.
Qed.

(** X16: a Pipe with the spline declared and no profile declared takes the
    profile from its second child that is a shape, not from the first:
    with fewer than two shapes among the children the rebuild raises an
    IndexError.  With the profile declared as well the children are not
    looked at; with only the profile declared the spline is the first
    child that is a shape. *)
Theorem pipe_declared_spline_skips_first_child :
  forall (U : Upstream) (d : Rebuild.Pipe.Declaration) (children : list Rebuild.Child)
         (sp : OccShape),
    Rebuild.Pipe.spline d = Some sp ->
    (Rebuild.Pipe.profile d = None ->
     Rebuild.Pipe.update_shape d children
     = match List.filter Rebuild.is_OccShape children with
       | _ :: c :: _ => Rebuild.Pipe.sweep d sp (Rebuild.proxy_of c)
       | _ => Failed (IndexError "list index out of range")
       end) /\
    (forall pr : OccShape,
        Rebuild.Pipe.profile d = Some pr ->
        Rebuild.Pipe.update_shape d children = Rebuild.Pipe.sweep d sp pr).
Proof.
  intros U d children sp Hs. split.
  - intros Hp. rewrite update_shape_sweep. cbv zeta. rewrite Hs, Hp.
    destruct (List.filter Rebuild.is_OccShape children) as [|c1 [|c2 l]]; reflexivity.
  - intros pr Hp. rewrite update_shape_sweep. cbv zeta. rewrite Hs, Hp. reflexivity.
Qed.

Lemma pipe_positional_uses_first_child_twice_witness :
  Rebuild.Pipe.update_shape plain_pipe [wire_child 1; wire_child 2]
  = Built (Rebuild.Pipe.BRepOffsetAPI_MakePipe
             (WireOf (Maker 1)) (ShapeOf (Maker 1)) None).
Proof.
  exact (pipe_positional_uses_first_child_twice sample_upstream plain_pipe
           [wire_child 1; wire_child 2] eq_refl eq_refl).
Defined.

Lemma pipe_declared_spline_skips_first_child_witness :
  Rebuild.Pipe.update_shape
    {| Rebuild.Pipe.spline := Some (box 1); Rebuild.Pipe.profile := None;
       Rebuild.Pipe.fill_mode := Some Rebuild.Pipe.frenet |}
    [wire_child 2]
  = Failed (IndexError "list index out of range").
Proof.
  exact (proj1 (pipe_declared_spline_skips_first_child sample_upstream
     {| Rebuild.Pipe.spline := Some (box 1); Rebuild.Pipe.profile := None;
        Rebuild.Pipe.fill_mode := Some Rebuild.Pipe.frenet |}
     [wire_child 2] (box 1) eq_refl) eq_refl).
Defined.

Section Loft.
Import Rebuild Rebuild.ThruSections.
Context {U : Upstream}.

Lemma add_sections (b : builder) (l1 l2 : list added) :
  fold_left add l2 (fold_left add l1 b) = fold_left add (l1 ++ l2) b.
Proof. symmetry. apply fold_left_app. Qed.

Lemma add_children_run (children : list Child) (b : builder) :
  Forall (fun c => forall m, method_of c = Some m ->
                             hasattr (shape (proxy_of c)) m = true) children ->
  add_children children b = Built (fold_left add (flat_map section_of children) b).
Proof.
  revert b. induction children as [|c children IH]; intros b H; [reflexivity|].
  inversion H as [|? ? Hc Hrest]; subst.
  cbn [add_children flat_map]. rewrite fold_left_app.
  unfold section_of, method_of in *.
  destruct (class_of c).
  - unfold Vertex. rewrite (Hc "Vertex" eq_refl). cbn [and_then fold_left].
    apply IH, Hrest.
  - unfold Wire. rewrite (Hc "Wire" eq_refl). cbn [and_then fold_left].
    apply IH, Hrest.
  - apply IH, Hrest.
  - apply IH, Hrest.
Qed.

Lemma fold_add_sections (s r : bool) (p : float) (l0 l : list added) :
  fold_left add l (BRepOffsetAPI_ThruSections s r p l0)
  = BRepOffsetAPI_ThruSections s r p (l0 ++ l).
Proof.
  revert l0. induction l as [|a l IH]; intros l0; simpl.
  - rewrite app_nil_r. reflexivity.
  - rewrite IH, <- app_assoc. reflexivity.
Qed.

(** The loop stops at the first vertex or wire child whose shape lacks
    the method. *)
Lemma add_children_fails (before after : list Child) (c : Child) (m : string)
      (b : builder) :
  Forall (fun c => forall m, method_of c = Some m ->
                             hasattr (shape (proxy_of c)) m = true) before ->
  method_of c = Some m ->
  hasattr (shape (proxy_of c)) m = false ->
  add_children (before ++ c :: after) b = Failed (Raised (AttributeError m)).
Proof.
  revert b. induction before as [|x before IH]; intros b H Hm Hc.
  - cbn [app add_children]. unfold method_of in Hm.
    destruct (class_of c); try discriminate Hm; injection Hm as <-.
    + unfold Vertex. rewrite Hc. reflexivity.
    + unfold Wire. rewrite Hc. reflexivity.
  - inversion H as [|? ? Hx Hrest]; subst.
    cbn [app add_children]. unfold method_of in Hx.
    destruct (class_of x).
    + unfold Vertex. rewrite (Hx "Vertex" eq_refl). cbn [and_then].
      apply IH; assumption.
    + unfold Wire. rewrite (Hx "Wire" eq_refl). cbn [and_then].
      apply IH; assumption.
    + apply IH; assumption.
    + apply IH; assumption.
Qed.

End Loft.

(** X17: a ThruSections rebuild makes the loft builder with the declared
    solid and ruled flags and precision and adds its children in declared
    order, a vertex for every vertex child and a wire for every wire
    child; children of any other class are passed over without an error.
    A loft without children is published empty.  The rebuild fails, and
    publishes nothing, at the first vertex or wire child whose shape
    lacks the method [Vertex] or [Wire]. *)
Theorem thru_sections_adds_in_order :
  forall (U : Upstream) (d : Rebuild.ThruSections.Declaration)
         (children : list Rebuild.Child),
    Forall (fun c => forall m, Rebuild.ThruSections.method_of c = Some m ->
                               hasattr (shape (Rebuild.proxy_of c)) m = true)
           children ->
    Rebuild.ThruSections.update_shape d children
    = Built (Rebuild.ThruSections.BRepOffsetAPI_ThruSections
               (Rebuild.ThruSections.solid d) (Rebuild.ThruSections.ruled d)
               (Rebuild.ThruSections.precision d)
               (flat_map Rebuild.ThruSections.section_of children)) /\
    (forall (c : Rebuild.Child) (after : list Rebuild.Child) (m : string),
        Rebuild.ThruSections.method_of c = Some m ->
        hasattr (shape (Rebuild.proxy_of c)) m = false ->
        Rebuild.ThruSections.update_shape d (children ++ c :: after)
        = Failed (Raised (AttributeError m))).
Proof.
  intros U d children H. split.
  - unfold Rebuild.ThruSections.update_shape. cbv zeta.
    rewrite add_children_run by exact H. rewrite fold_add_sections. reflexivity.
  - intros c after m Hm Hc. unfold Rebuild.ThruSections.update_shape. cbv zeta.
    apply add_children_fails; assumption.
Qed.

Lemma loft_children_ready :
  Forall (fun c => forall m, Rebuild.ThruSections.method_of c = Some m ->
                             hasattr (shape (Rebuild.proxy_of c)) m = true)
         [vertex_child 100; other_child 5; wire_child 1; wire_child 2].
Proof.
  repeat constructor; intros m H; vm_compute in H;
    try discriminate H; injection H as <-; reflexivity.
Qed.

Lemma thru_sections_adds_in_order_witness :
  Rebuild.ThruSections.update_shape loft
    [vertex_child 100; other_child 5; wire_child 1; wire_child 2]
  = Built (Rebuild.ThruSections.BRepOffsetAPI_ThruSections true false 1%float
             [Rebuild.ThruSections.AddVertex (VertexOf (Maker 100));
              Rebuild.ThruSections.AddWire (WireOf (Maker 1));
              Rebuild.ThruSections.AddWire (WireOf (Maker 2))]).
Proof.
  exact (proj1 (thru_sections_adds_in_order sample_upstream loft _ loft_children_ready)).
Defined.

(** X18: an Offset works on its first child.  When that child's shape is
    a wire builder the planar offset is built from its wire and the join
    type and performed once with the declared offset; the tolerance, the
    offset mode and the intersection flag play no part, so two
    declarations that agree on offset and join type give the same
    builder.  Any other shape goes to the shape offset with all the
    declared parameters and the self-intersection flag off.  Without a
    child the rebuild raises an AttributeError. *)
Theorem offset_wire_or_shape :
  forall (U : Upstream) (d : Rebuild.Offset.Declaration) (c : OccShape)
         (rest : list OccShape),
    (is_MakeWire (shape c) = true ->
     hasattr (shape c) "Wire" = true ->
     Rebuild.Offset.update_shape d (c :: rest)
     = Built (Rebuild.Offset.BRepOffsetAPI_MakeOffset
                (WireOf (shape c))
                (OccOffset.join_types (Rebuild.Offset.join_type d))
                [Rebuild.Offset.offset d]) /\
     forall d' : Rebuild.Offset.Declaration,
       Rebuild.Offset.offset d' = Rebuild.Offset.offset d ->
       Rebuild.Offset.join_type d' = Rebuild.Offset.join_type d ->
       Rebuild.Offset.update_shape d' (c :: rest)
       = Rebuild.Offset.update_shape d (c :: rest)) /\
    (is_MakeWire (shape c) = false ->
     Rebuild.Offset.update_shape d (c :: rest)
     = Built (Rebuild.Offset.BRepOffsetAPI_MakeOffsetShape
                (as_shape (shape c))
                (Rebuild.Offset.offset d) (Rebuild.Offset.tolerance d)
                (OccOffset.offset_modes (Rebuild.Offset.offset_mode d))
                (Rebuild.Offset.intersection d) false
                (OccOffset.join_types (Rebuild.Offset.join_type d)))) /\
    Rebuild.Offset.update_shape d []
    = Failed (Raised (AttributeError "'NoneType' object has no attribute 'shape'")).
Proof.
  intros U d c rest. split; [|split; [|reflexivity]].
  - intros Hw Ha.
    assert (E : forall d0, Rebuild.Offset.update_shape d0 (c :: rest)
                           = Built (Rebuild.Offset.BRepOffsetAPI_MakeOffset
                                      (WireOf (shape c))
                                      (OccOffset.join_types (Rebuild.Offset.join_type d0))
                                      [Rebuild.Offset.offset d0])).
    { intros d0. unfold Rebuild.Offset.update_shape, OccOffset.get_shape, shape_of.
      cbn [and_then]. rewrite Hw. unfold Rebuild.Wire. rewrite Ha. reflexivity. }
    split; [apply E|]. intros d' Ho Hj. rewrite !E, Ho, Hj. reflexivity.
  - intros Hw. unfold Rebuild.Offset.update_shape, OccOffset.get_shape, shape_of.
    cbn [and_then]. rewrite Hw. unfold Shape, as_shape.
    destruct (has_Shape (shape c)); reflexivity.
Qed.


Lemma offset_wire_or_shape_witness :
  Rebuild.Offset.update_shape sample_offset [box 1]
  = Built (Rebuild.Offset.BRepOffsetAPI_MakeOffset
             (WireOf (Maker 1)) (Const "GeomAbs_Arc") [2%float]).
Proof.
  exact (proj1 (proj1 (offset_wire_or_shape sample_upstream sample_offset (box 1) [])
                      eq_refl eq_refl)).
Defined.


(** ** The dock layout *)

Section DockLayout.
Import DeclaracadPlugin.

Lemma without_absent (key : string) (d : dict) :
  ~ In key (map fst d) -> without key d = d.
Proof.
  induction d as [|[k v] d IH]; intros H; [reflexivity|].
  simpl in *. destruct (String.eqb_spec k key) as [->|Hne].
  - exfalso. apply H. auto.
  - simpl. f_equal. apply IH. intros Hin. apply H. auto.
Qed.

Lemma pop_None (key : string) (d : dict) :
  pop key d = None -> ~ In key (map fst d).
Proof.
  induction d as [|[k v] d IH]; intros H Hin; [exact Hin|].
  simpl in *. destruct (String.eqb_spec k key) as [->|Hne]; [discriminate H|].
  destruct (pop key d) as [[found rest']|]; [discriminate H|].
  destruct Hin as [E|Hin]; [congruence|]. apply IH; auto.
Qed.

Lemma pop_absent (key : string) (d : dict) :
  ~ In key (map fst d) -> pop key d = None.
Proof.
  induction d as [|[k v] d IH]; intros H; [reflexivity|].
  simpl in *. destruct (String.eqb_spec k key) as [->|Hne].
  - exfalso. apply H. auto.
  - rewrite IH; [reflexivity|]. intros Hin. apply H. auto.
Qed.

Lemma pop_Some (key : string) (d : dict) (v : list string) (d' : dict) :
  List.NoDup (map fst d) ->
  pop key d = Some (v, d') ->
  In (key, v) d /\ d' = without key d.
Proof.
  revert d'. induction d as [|[k x] d IH]; intros d' Hnd H; [discriminate H|].
  simpl in *. inversion Hnd as [|? ? Hnotin Hnd']; subst.
  destruct (String.eqb_spec k key) as [->|Hne].
  - injection H as <- <-. split; [auto|]. unfold without. cbn [List.filter fst negb].
    symmetry. apply without_absent, Hnotin.
  - destruct (pop key d) as [[found rest']|] eqn:E; [|discriminate H].
    injection H as <- <-. destruct (IH rest' Hnd' eq_refl) as [Hin ->].
    split; [auto|]. unfold without. simpl.
    destruct (String.eqb_spec k key) as [E'|_]; [congruence|]. reflexivity.
Qed.

Lemma pop_default_without (key : string) (d : dict) :
  List.NoDup (map fst d) -> snd (pop_default key [] d) = without key d.
Proof.
  intros Hnd. unfold pop_default. destruct (pop key d) as [[v d']|] eqn:E.
  - apply (pop_Some key d v d' Hnd E).
  - simpl. symmetry. apply without_absent, pop_None, E.
Qed.

Lemma NoDup_without (key : string) (d : dict) :
  List.NoDup (map fst d) -> List.NoDup (map fst (without key d)).
Proof.
  induction d as [|[k v] d IH]; intros H; [exact H|].
  inversion H as [|? ? Hnotin Hnd]; subst. unfold without. simpl.
  destruct (negb (String.eqb k key)); [|apply IH, Hnd].
  simpl. constructor; [|apply IH, Hnd].
  intros Hin. apply Hnotin. apply in_map_iff in Hin.
  destruct Hin as (e & He & Hf). apply filter_In in Hf.
  apply in_map_iff. exists e. tauto.
Qed.

Lemma without_main_keys (d : dict) :
  without "main-bottom" (without "main-left" (without "main" d))
  = List.filter (fun e => negb (is_main_key (fst e))) d.
Proof.
  unfold without. induction d as [|[k v] d IH]; [reflexivity|].
  unfold is_main_key, main_keys in *. simpl in *.
  destruct (String.eqb k "main"); simpl; [exact IH|].
  destruct (String.eqb k "main-left"); simpl; [exact IH|].
  destruct (String.eqb k "main-bottom"); simpl; [exact IH|].
  f_equal. exact IH.
Qed.

Lemma filter_nonempty_others (d : dict) :
  List.filter (fun e => nonempty (snd e))
    (List.filter (fun e => negb (is_main_key (fst e))) d)
  = List.filter (fun e => nonempty (snd e) && negb (is_main_key (fst e))) d.
Proof.
  induction d as [|[k v] d IH]; [reflexivity|].
  simpl. destruct (is_main_key k); simpl.
  - rewrite IH, andb_false_r. reflexivity.
  - rewrite andb_true_r. destruct (nonempty v); simpl; rewrite IH; reflexivity.
Qed.

(** With every position a side, the comprehension yields a bar for each
    entry that has items. *)
Lemma dock_bars_of_sides (d : dict) :
  Forall (fun e => is_side (fst e) = true)
         (List.filter (fun e => nonempty (snd e)) d) ->
  dock_bars_of d
  = inr (map (fun e => {| bar_items := map Item (snd e); position := fst e |})
             (List.filter (fun e => nonempty (snd e)) d)).
Proof.
  induction d as [|[k v] d IH]; intros H; [reflexivity|].
  simpl in *. destruct (nonempty v); [|apply IH, H].
  inversion H as [|? ? Hk Hrest]; subst. simpl in Hk.
  unfold new_DockBarLayout. rewrite Hk, (IH Hrest). reflexivity.
Qed.

(** It stops at the first entry with items whose position is refused. *)
Lemma dock_bars_of_refused (d : dict) (before after : dict)
      (e : string * list string) :
  List.filter (fun e => nonempty (snd e)) d = before ++ e :: after ->
  Forall (fun e => is_side (fst e) = true) before ->
  is_side (fst e) = false ->
  dock_bars_of d = inl (ValueError (fst e)).
Proof.
  revert before. induction d as [|[k v] d IH]; intros before E Hb He.
  - destruct before; discriminate E.
  - simpl in *. destruct (nonempty v); [|apply (IH before); assumption].
    destruct before as [|b before]; simpl in E.
    + injection E as <- E. simpl in He. unfold new_DockBarLayout. rewrite He. reflexivity.
    + injection E as <- E. inversion Hb as [|? ? Hk Hrest]; subst. simpl in Hk.
      unfold new_DockBarLayout. rewrite Hk, (IH before E Hrest He). reflexivity.
Qed.

End DockLayout.

(** X20: with dock items at hand and a non-empty list of main items in
    the layout, [_refresh_layout] pops the three main positions from the
    caller's dict and makes a dock bar, in the order of the dict, for
    every other position that has items.  When each of these positions
    is one of the four sides it returns nothing and assigns an area
    layout with exactly these bars: no bar is empty and none is made for
    the three main positions.  Otherwise it raises the ValueError of the
    first position that is not a side, and assigns nothing. *)
Theorem dock_bars_are_the_nonempty_sides :
  forall (dock_items : list string)
         (current : option DeclaracadPlugin.AreaLayout)
         (layout : list (string * list string)) (items : list string),
    nonempty dock_items = true ->
    List.NoDup (map fst layout) ->
    In ("main", items) layout ->
    nonempty items = true ->
    let r := DeclaracadPlugin._refresh_layout dock_items current layout in
    let others :=
      List.filter (fun e => nonempty (snd e)
                            && negb (DeclaracadPlugin.is_main_key (fst e))) layout in
    DeclaracadPlugin.layout_after r
    = List.filter (fun e => negb (DeclaracadPlugin.is_main_key (fst e))) layout /\
    (Forall (fun e => DeclaracadPlugin.is_side (fst e) = true) others ->
     DeclaracadPlugin.returned r = inr None /\
     exists main : DeclaracadPlugin.node,
       DeclaracadPlugin.dock_layout r
       = Some {| DeclaracadPlugin.item := Some main;
                 DeclaracadPlugin.dock_bars :=
                   map (fun e => {| DeclaracadPlugin.bar_items :=
                                      map DeclaracadPlugin.Item (snd e);
                                    DeclaracadPlugin.position := fst e |})
                       others |}) /\
    (forall (before after : list (string * list string))
            (e : string * list string),
        others = before ++ e :: after ->
        Forall (fun e => DeclaracadPlugin.is_side (fst e) = true) before ->
        DeclaracadPlugin.is_side (fst e) = false ->
        DeclaracadPlugin.returned r = inl (DeclaracadPlugin.ValueError (fst e)) /\
        DeclaracadPlugin.dock_layout r = current).
Proof.
  intros dock_items current layout items Hd Hnd Hin Hne r others. subst r others.
  unfold DeclaracadPlugin._refresh_layout. rewrite Hd. cbn [negb].
  destruct (DeclaracadPlugin.pop "main" layout) as [[items' l1]|] eqn:E1.
  2:{ exfalso. apply (pop_None _ _ E1). apply in_map_iff. exists ("main", items). auto. }
  destruct (pop_Some _ _ _ _ Hnd E1) as [Hin' ->].
  assert (items' = items).
  { clear - Hnd Hin Hin'. induction layout as [|[k v] layout IH]; [contradiction|].
    simpl in *. inversion Hnd as [|? ? Hnotin Hnd']; subst.
    destruct Hin as [E|Hin], Hin' as [E'|Hin'].
    - congruence.
    - exfalso. apply Hnotin. injection E as -> _. apply in_map_iff.
      exists ("main", items'). auto.
    - exfalso. apply Hnotin. injection E' as -> _. apply in_map_iff.
      exists ("main", items). auto.
    - apply IH; assumption. }
  subst items'. rewrite Hne. cbn [negb].
  pose proof (NoDup_without "main" layout Hnd) as Hnd1.
  pose proof (pop_default_without "main-left" _ Hnd1) as E2.
  destruct (DeclaracadPlugin.pop_default "main-left" [] (DeclaracadPlugin.without "main" layout))
    as [left_items l2].
  simpl in E2. subst l2.
  pose proof (NoDup_without "main-left" _ Hnd1) as Hnd2.
  pose proof (pop_default_without "main-bottom" _ Hnd2) as E3.
  destruct (DeclaracadPlugin.pop_default "main-bottom" []
              (DeclaracadPlugin.without "main-left" (DeclaracadPlugin.without "main" layout))) as [bottom_items l3].
  simpl in E3. subst l3.
  rewrite without_main_keys. rewrite <- filter_nonempty_others.
  split; [|split].
  - destruct (DeclaracadPlugin.dock_bars_of _); reflexivity.
  - intros Hsides. rewrite (dock_bars_of_sides _ Hsides).
    cbn [DeclaracadPlugin.returned DeclaracadPlugin.dock_layout].
    split; [reflexivity|]. eexists. reflexivity.
  - intros before after e Hsplit Hbefore He.
    rewrite (dock_bars_of_refused _ before after e Hsplit Hbefore He).
    split; reflexivity.
Qed.

Lemma sample_layout_keys : List.NoDup (map fst sample_layout).
Proof.
  unfold sample_layout. simpl.
  repeat (constructor; [simpl; intuition discriminate|]). constructor.
Qed.

Lemma sample_layout_sides :
  Forall (fun e => DeclaracadPlugin.is_side (fst e) = true)
         (List.filter (fun e => nonempty (snd e)
                                && negb (DeclaracadPlugin.is_main_key (fst e)))
                      sample_layout).
Proof. repeat constructor. Qed.

Lemma dock_bars_are_the_nonempty_sides_witness :
  DeclaracadPlugin.returned
    (DeclaracadPlugin._refresh_layout ["editor"; "toolbox"; "console"; "log"]
       None sample_layout) = inr None /\
  DeclaracadPlugin.layout_after
    (DeclaracadPlugin._refresh_layout ["editor"; "toolbox"; "console"; "log"]
       None sample_layout)
  = [("left", ["toolbox"]); ("right", []); ("bottom", ["log"])].
Proof.
  pose proof (dock_bars_are_the_nonempty_sides
                ["editor"; "toolbox"; "console"; "log"] None sample_layout ["editor"]
                eq_refl sample_layout_keys (or_introl eq_refl) eq_refl) as H.
  exact (conj (proj1 (proj1 (proj2 H) sample_layout_sides)) (proj1 H)).
Defined.

(** X21: [_refresh_layout] assigns the dock layout only when it succeeds.
    Without dock items it returns an empty area layout and touches
    neither the member nor the dict, even when the dict has no main
    entry; with dock items it raises a KeyError when the dict has no main
    entry and an EnvironmentError when the main entry is empty, and the
    member keeps its value in both cases, though the empty main entry has
    by then been popped from the dict. *)
Theorem refresh_layout_failures_assign_nothing :
  forall (dock_items : list string)
         (current : option DeclaracadPlugin.AreaLayout)
         (layout : list (string * list string)),
    let r := DeclaracadPlugin._refresh_layout dock_items current layout in
    (dock_items = [] ->
     r = {| DeclaracadPlugin.returned :=
              inr (Some {| DeclaracadPlugin.item := None;
                           DeclaracadPlugin.dock_bars := [] |});
            DeclaracadPlugin.dock_layout := current;
            DeclaracadPlugin.layout_after := layout |}) /\
    (dock_items <> [] -> ~ In "main" (map fst layout) ->
     r = {| DeclaracadPlugin.returned := inl (DeclaracadPlugin.KeyError "main");
            DeclaracadPlugin.dock_layout := current;
            DeclaracadPlugin.layout_after := layout |}) /\
    (dock_items <> [] -> List.NoDup (map fst layout) -> In ("main", []) layout ->
     r = {| DeclaracadPlugin.returned :=
              inl (DeclaracadPlugin.EnvironmentError
                     "At least one main layout item must be defined!");
            DeclaracadPlugin.dock_layout := current;
            DeclaracadPlugin.layout_after := DeclaracadPlugin.without "main" layout |}) /\
    (forall e : DeclaracadPlugin.raised,
        DeclaracadPlugin.returned r = inl e ->
        DeclaracadPlugin.dock_layout r = current).
Proof.
  intros dock_items current layout r. subst r.
  unfold DeclaracadPlugin._refresh_layout.
  split; [intros ->; reflexivity|].
  split.
  { intros Hd Hnot. destruct dock_items; [congruence|]. cbn [nonempty negb].
    rewrite (pop_absent _ _ Hnot). reflexivity. }
  split.
  { intros Hd Hnd Hin. destruct dock_items; [congruence|]. cbn [nonempty negb].
    destruct (DeclaracadPlugin.pop "main" layout) as [[items l1]|] eqn:E.
    - destruct (pop_Some _ _ _ _ Hnd E) as [Hin' ->].
      assert (items = []).
      { clear - Hnd Hin Hin'. induction layout as [|[k v] layout IH]; [contradiction|].
        simpl in *. inversion Hnd as [|? ? Hnotin Hnd']; subst.
        destruct Hin as [E|Hin], Hin' as [E'|Hin'].
        - congruence.
        - exfalso. apply Hnotin. injection E as -> _. apply in_map_iff.
          exists ("main", items). auto.
        - exfalso. apply Hnotin. injection E' as -> _. apply in_map_iff.
          exists ("main", []). auto.
        - apply IH; assumption. }
      subst items. reflexivity.
    - exfalso. apply (pop_None _ _ E). apply in_map_iff. exists ("main", []). auto. }
  intros e He. destruct (negb (nonempty dock_items)); [discriminate He|].
  destruct (DeclaracadPlugin.pop "main" layout) as [[items l1]|]; [|reflexivity].
  destruct (negb (nonempty items)); [reflexivity|].
  destruct (DeclaracadPlugin.pop_default "main-left" [] l1) as [left_items l2].
  destruct (DeclaracadPlugin.pop_default "main-bottom" [] l2) as [bottom_items l3].
  destruct (DeclaracadPlugin.dock_bars_of l3); [reflexivity|discriminate He].
Qed.
